(** * A verified model of the task-list editor (react-todo-app/src/App.tsx)

    The component [App] keeps five pieces of React state (the task list, the
    text of the add box, the filter, and the edit session made of [editingId]
    and [editText]) and two effects that tie the task list to the
    [localStorage] slot named [todos].  Each event handler of the source is
    embedded as a function from state to state; the two effects are embedded
    over an explicit record of the platform functions they call. *)

From Stdlib Require Import List ZArith NArith Lia Bool String Ascii.
From Stdlib Require DecimalPos.
Import ListNotations.

Set Implicit Arguments.
Set Warnings "-register-all".
Local Open Scope Z_scope.

(** ** JavaScript strings *)

Module JsString.

(** A JavaScript string is a sequence of UTF-16 code units. *)
Definition code_unit := N.
Definition jsstring := list code_unit.

(** Literals: the code units of an ASCII text. *)
Definition js (s : string) : jsstring :=
  List.map N_of_ascii (list_ascii_of_string s).

(** JSON texts are full of double quotes; [jq] writes them as apostrophes
    (code unit 39 becomes 34). *)
Definition jq (s : string) : jsstring :=
  List.map (fun c => if N.eqb c 39 then 34%N else c) (js s).

(** [a === b] on two strings. *)
Fixpoint str_eqb (a b : jsstring) : bool :=
  match a, b with
  | [], [] => true
  | x :: a', y :: b' => N.eqb x y && str_eqb a' b'
  | _, _ => false
  end.

(** ECMAScript WhiteSpace and LineTerminator code points, the ones
    [String.prototype.trim] strips. *)
Definition is_ws (c : code_unit) : bool :=
  (N.leb 9 c && N.leb c 13)            (* TAB, LF, VT, FF, CR *)
  || N.eqb c 32                        (* SPACE *)
  || N.eqb c 160                       (* NO-BREAK SPACE *)
  || N.eqb c 5760                      (* U+1680 *)
  || (N.leb 8192 c && N.leb c 8202)    (* U+2000 .. U+200A *)
  || N.eqb c 8232 || N.eqb c 8233      (* U+2028, U+2029 *)
  || N.eqb c 8239                      (* U+202F *)
  || N.eqb c 8287                      (* U+205F *)
  || N.eqb c 12288                     (* U+3000 *)
  || N.eqb c 65279.                    (* U+FEFF *)

Fixpoint trimStart (s : jsstring) : jsstring :=
  match s with
  | c :: s' => if is_ws c then trimStart s' else s
  | [] => []
  end.

Definition trimEnd (s : jsstring) : jsstring := rev (trimStart (rev s)).

(** [s.trim()] *)
Definition trim (s : jsstring) : jsstring := trimEnd (trimStart s).

(** Empty or made of white space only. *)
Definition blank (s : jsstring) : bool := forallb is_ws s.

(** Decimal digits of a natural number, most significant first. *)
Fixpoint digits (u : Decimal.uint) : jsstring :=
  match u with
  | Decimal.Nil => []
  | Decimal.D0 u => 48%N :: digits u
  | Decimal.D1 u => 49%N :: digits u
  | Decimal.D2 u => 50%N :: digits u
  | Decimal.D3 u => 51%N :: digits u
  | Decimal.D4 u => 52%N :: digits u
  | Decimal.D5 u => 53%N :: digits u
  | Decimal.D6 u => 54%N :: digits u
  | Decimal.D7 u => 55%N :: digits u
  | Decimal.D8 u => 56%N :: digits u
  | Decimal.D9 u => 57%N :: digits u
  end.

Definition N_toString (n : N) : jsstring :=
  match n with
  | N0 => [48%N]
  | Npos p => digits (Pos.to_uint p)
  end.

(** [n.toString()] for an integral number [n] (below 10^21 in size, as
    every clock reading is). *)
Definition Z_toString (z : Z) : jsstring :=
  match z with
  | Z0 => [48%N]
  | Zpos p => digits (Pos.to_uint p)
  | Zneg p => 45%N :: digits (Pos.to_uint p)
  end.

End JsString.
Import JsString.

(** ** Data model *)

(** A [Date] object holds a time value: a whole number of milliseconds since
    the epoch, or NaN, in which case the object is an Invalid Date. *)
Inductive Date : Type :=
| DateOf (tv : Z)
| InvalidDate.

(** [interface Todo] *)
Record Todo : Type := mkTodo {
  id : jsstring;
  text : jsstring;
  completed : bool;
  createdAt : Date
}.

(** ['all' | 'active' | 'completed']; the last one is written [completed_],
    [completed] being the field of [Todo]. *)
Inductive Filter : Type := all | active | completed_.

(** The five [useState] cells of [App]. *)
Record State : Type := mkState {
  todos : list Todo;
  newTodo : jsstring;
  filter : Filter;
  editingId : option jsstring;
  editText : jsstring
}.

(** The state of the first render. *)
Definition initial : State :=
  {| todos := []; newTodo := []; filter := all; editingId := None; editText := [] |}.

(** The state setters. *)
Definition setTodos (v : list Todo) (s : State) : State :=
  {| todos := v; newTodo := newTodo s; filter := filter s;
     editingId := editingId s; editText := editText s |}.

Definition setNewTodo (v : jsstring) (s : State) : State :=
  {| todos := todos s; newTodo := v; filter := filter s;
     editingId := editingId s; editText := editText s |}.

Definition setFilter (v : Filter) (s : State) : State :=
  {| todos := todos s; newTodo := newTodo s; filter := v;
     editingId := editingId s; editText := editText s |}.

Definition setEditingId (v : option jsstring) (s : State) : State :=
  {| todos := todos s; newTodo := newTodo s; filter := filter s;
     editingId := v; editText := editText s |}.

Definition setEditText (v : jsstring) (s : State) : State :=
  {| todos := todos s; newTodo := newTodo s; filter := filter s;
     editingId := editingId s; editText := v |}.

(** ** Event handlers *)

(** [addTodo].  The handler reads the clock twice: [now] is what [Date.now()]
    returns for the id, [created] the time value of [new Date()]. *)
Definition addTodo (now created : Z) (s : State) : State :=
  if str_eqb (trim (newTodo s)) [] then s
  else
    let newTodoItem :=
      {| id := Z_toString now;
         text := trim (newTodo s);
         completed := false;
         createdAt := DateOf created |} in
    setNewTodo [] (setTodos (newTodoItem :: todos s) s).

(** [deleteTodo] *)
Definition deleteTodo (id' : jsstring) (s : State) : State :=
  setTodos (List.filter (fun todo => negb (str_eqb (id todo) id')) (todos s)) s.

(** [toggleTodo] *)
Definition toggleTodo (id' : jsstring) (s : State) : State :=
  setTodos
    (List.map (fun todo =>
       if str_eqb (id todo) id'
       then {| id := id todo; text := text todo;
               completed := negb (completed todo); createdAt := createdAt todo |}
       else todo) (todos s)) s.

(** [startEditing] *)
Definition startEditing (todo : Todo) (s : State) : State :=
  setEditText (text todo) (setEditingId (Some (id todo)) s).

(** [todo.id === editingId], where [editingId] may be [null]. *)
Definition is_editing (e : option jsstring) (todo : Todo) : bool :=
  match e with
  | Some i => str_eqb (id todo) i
  | None => false
  end.

(** [saveEdit] *)
Definition saveEdit (s : State) : State :=
  if str_eqb (trim (editText s)) [] then s
  else
    setEditText []
      (setEditingId None
         (setTodos
            (List.map (fun todo =>
               if is_editing (editingId s) todo
               then {| id := id todo; text := trim (editText s);
                       completed := completed todo; createdAt := createdAt todo |}
               else todo) (todos s)) s)).

(** [cancelEdit] *)
Definition cancelEdit (s : State) : State :=
  setEditText [] (setEditingId None s).

(** [filteredTodos] *)
Definition filteredTodos (s : State) : list Todo :=
  List.filter (fun todo =>
    match filter s with
    | active => negb (completed todo)
    | completed_ => completed todo
    | all => true
    end) (todos s).

(** [activeCount] and [completedCount] *)
Definition activeCount (s : State) : nat :=
  List.length (List.filter (fun todo => negb (completed todo)) (todos s)).

Definition completedCount (s : State) : nat :=
  (List.length (todos s) - activeCount s)%nat.

(** The controller operations of the specification that take a text are a
    change of the input followed by the handler: [add text] types [text]
    into the add box and presses Add; [updateDraft] is the [onChange] of the
    edit box. *)
Definition add (t : jsstring) (now created : Z) (s : State) : State :=
  addTodo now created (setNewTodo t s).

Definition updateDraft (t : jsstring) (s : State) : State := setEditText t s.

(** ** JSON documents, exceptions and the platform *)

(** The value [JSON.parse] builds.  A number is kept as the decimal it is
    written as, [m * 10^e]; the code never computes with a parsed number
    (it can only hand one to [new Date]), so its rounding to binary64 is
    left out. *)
Inductive json : Type :=
| JNull
| JBool (b : bool)
| JNum (m e : Z)
| JStr (s : jsstring)
| JArr (items : list json)
| JObj (props : list (jsstring * json)).

Inductive exn : Type := SyntaxError | TypeError.

(** Outcome of evaluating an expression that may throw. *)
Inductive completion (A : Type) : Type :=
| Normal (a : A)
| Throw (e : exn).
Arguments Normal {A} a.
Arguments Throw {A} e.

(** The built-ins the two effects call.  [JSON_stringify] renders a document
    in which every [Date] has already been replaced by its [toJSON()];
    [Date_parse] is [new Date(s)] for a string [s]; [Date_ofValue] is
    [new Date(v)] for a number, an array or an object [v] (it throws when
    [v] cannot be converted to a primitive). *)
Record Platform : Type := mkPlatform {
  JSON_parse : jsstring -> completion json;
  JSON_stringify : json -> jsstring;
  Date_toISOString : Z -> jsstring;
  Date_parse : jsstring -> Date;
  Date_ofValue : json -> completion Date
}.

(** What the revived records hold: parsed JSON, and [Date] objects. *)
Inductive value : Type :=
| VJson (v : json)
| VDate (d : Date).

(** An object: its own properties, in the order they were created.  (An
    engine lists integer-like keys first; nothing here depends on the
    order.) *)
Definition object := list (jsstring * value).

Fixpoint get_prop {V : Type} (k : jsstring) (o : list (jsstring * V)) : option V :=
  match o with
  | [] => None
  | (k', v) :: o' => if str_eqb k' k then Some v else get_prop k o'
  end.

(** [o[k] = v]: replaces the value of an existing property where it stands,
    appends a new one. *)
Fixpoint set_prop {V : Type} (k : jsstring) (v : V) (o : list (jsstring * V))
  : list (jsstring * V) :=
  match o with
  | [] => [(k, v)]
  | (k', v') :: o' =>
      if str_eqb k' k then (k, v) :: o' else (k', v') :: set_prop k v o'
  end.

(** Own enumerable properties of the elements of an array or the code units
    of a string: the indices from [i] on. *)
Fixpoint indexed {A : Type} (f : A -> json) (i : N) (l : list A) : object :=
  match l with
  | [] => []
  | x :: l' => (N_toString i, VJson (f x)) :: indexed f (N.succ i) l'
  end.

(** [{...todo}] *)
Definition spread (todo : json) : object :=
  match todo with
  | JObj props => List.map (fun kv => (fst kv, VJson (snd kv))) props
  | JArr items => indexed (fun v => v) 0%N items
  | JStr s => indexed (fun c => JStr [c]) 0%N s
  | JNull | JBool _ | JNum _ _ => []
  end.

(** [todo.createdAt]: [None] is [undefined]; reading a property of [null]
    throws. *)
Definition read_createdAt (todo : json) : completion (option json) :=
  match todo with
  | JNull => Throw TypeError
  | JObj props => Normal (get_prop (js "createdAt") props)
  | _ => Normal None
  end.

(** [new Date(value)]: a string is parsed, anything else is converted to a
    number ([undefined] to NaN, [null] to 0, a boolean to 0 or 1). *)
Definition new_Date (P : Platform) (value : option json) : completion Date :=
  match value with
  | None => Normal InvalidDate
  | Some JNull => Normal (DateOf 0)
  | Some (JBool b) => Normal (DateOf (if b then 1 else 0))
  | Some (JStr s) => Normal (Date_parse P s)
  | Some v => Date_ofValue P v
  end.

(** The callback of [parsed.map]:
    [{...todo, createdAt: new Date(todo.createdAt)}] *)
Definition revive (P : Platform) (todo : json) : completion object :=
  match read_createdAt todo with
  | Throw e => Throw e
  | Normal c =>
      match new_Date P c with
      | Throw e => Throw e
      | Normal d => Normal (set_prop (js "createdAt") (VDate d) (spread todo))
      end
  end.

(** [items.map(f)] for a callback that may throw: the first exception ends
    the traversal. *)
Fixpoint map_throwing {A B : Type} (f : A -> completion B) (l : list A)
  : completion (list B) :=
  match l with
  | [] => Normal []
  | x :: l' =>
      match f x with
      | Throw e => Throw e
      | Normal y =>
          match map_throwing f l' with
          | Throw e => Throw e
          | Normal ys => Normal (y :: ys)
          end
      end
  end.

(** The body of the [try] block of the load effect, up to the value passed
    to [setTodos].  Calling [map] on anything but an array throws. *)
Definition deserialize (P : Platform) (saved : jsstring) : completion (list object) :=
  match JSON_parse P saved with
  | Throw e => Throw e
  | Normal (JArr items) => map_throwing (revive P) items
  | Normal _ => Throw TypeError
  end.

(** What the load effect does with the slot it reads. *)
Inductive LoadOutcome : Type :=
| NothingSaved                              (* [if (saved)] is false *)
| Loaded (todosWithDates : list object)     (* [setTodos(todosWithDates)] *)
| Failed (e : exn).                         (* the [catch] block: [console.error(..., e)] *)

(** The load effect; [saved] is [localStorage.getItem('todos')], [None] being
    [null].  The empty string is falsy. *)
Definition load (P : Platform) (saved : option jsstring) : LoadOutcome :=
  match saved with
  | None => NothingSaved
  | Some [] => NothingSaved
  | Some text =>
      match deserialize P text with
      | Normal todosWithDates => Loaded todosWithDates
      | Throw e => Failed e
      end
  end.

(** *** The records the program declares *)

(** The object a [Todo] is at run time. *)
Definition todo_object (t : Todo) : object :=
  [ (js "id", VJson (JStr (id t)));
    (js "text", VJson (JStr (text t)));
    (js "completed", VJson (JBool (completed t)));
    (js "createdAt", VDate (createdAt t)) ].

(** Reading an object at type [Todo].  Further properties and the order of
    the properties are forgotten: no handler looks at them.  [None]: the
    object does not have the declared shape. *)
Definition as_Todo (o : object) : option Todo :=
  match get_prop (js "id") o, get_prop (js "text") o,
        get_prop (js "completed") o, get_prop (js "createdAt") o with
  | Some (VJson (JStr i)), Some (VJson (JStr t)), Some (VJson (JBool c)), Some (VDate d) =>
      Some {| id := i; text := t; completed := c; createdAt := d |}
  | _, _, _, _ => None
  end.

Fixpoint as_Todos (l : list object) : option (list Todo) :=
  match l with
  | [] => Some []
  | o :: l' =>
      match as_Todo o, as_Todos l' with
      | Some t, Some ts => Some (t :: ts)
      | _, _ => None
      end
  end.

(** Errors handed to [console.error]. *)
Definition console := list exn.

(** The load effect on the state of the component, with what it logs.
    [None]: the snapshot puts records into [todos] that do not have the shape
    of [Todo]; the typed handlers above say nothing about such a run. *)
Definition load_state (P : Platform) (saved : option jsstring) (s : State)
  : option (State * console) :=
  match load P saved with
  | NothingSaved => Some (s, [])
  | Failed e => Some (s, [e])
  | Loaded todosWithDates =>
      match as_Todos todosWithDates with
      | Some ts => Some (setTodos ts s, [])
      | None => None
      end
  end.

(** [Date.prototype.toJSON]: the ISO string, or [null] for an Invalid Date. *)
Definition Date_toJSON (P : Platform) (d : Date) : json :=
  match d with
  | DateOf tv => JStr (Date_toISOString P tv)
  | InvalidDate => JNull
  end.

(** The document [JSON.stringify] writes for one task and for the list. *)
Definition todo_toJSON (P : Platform) (t : Todo) : json :=
  JObj [ (js "id", JStr (id t));
         (js "text", JStr (text t));
         (js "completed", JBool (completed t));
         (js "createdAt", Date_toJSON P (createdAt t)) ].

Definition todos_toJSON (P : Platform) (ts : list Todo) : json :=
  JArr (List.map (todo_toJSON P) ts).

(** The save effect: the text written by
    [localStorage.setItem('todos', JSON.stringify(todos))]. *)
Definition save (P : Platform) (ts : list Todo) : jsstring :=
  JSON_stringify P (todos_toJSON P ts).

(** ** A reference platform

    An executable rendering of the built-ins on the inputs the task list
    produces and reads back, so that the effects can be run on concrete
    snapshots: JSON texts as ECMA-404 defines them, and dates in the format
    [toISOString] writes.  Date strings in any other format, and arrays and
    objects given to [new Date], are read as Invalid Date here; engines
    differ on them and nothing below runs the reference on one. *)

Module Ref.

Local Open Scope N_scope.

Definition hex_digit (n : N) : code_unit :=
  if n <? 10 then 48 + n else 87 + n.

(** A [\uXXXX] escape. *)
Definition u_escape (c : code_unit) : jsstring :=
  [92; 117; hex_digit (c / 4096); hex_digit ((c / 256) mod 16);
   hex_digit ((c / 16) mod 16); hex_digit (c mod 16)].

Definition is_high (c : code_unit) : bool := (55296 <=? c) && (c <=? 56319).
Definition is_low (c : code_unit) : bool := (56320 <=? c) && (c <=? 57343).

(** QuoteJSONString, without the enclosing quotes. *)
Fixpoint quote_body (s : jsstring) : jsstring :=
  match s with
  | [] => []
  | c :: r =>
      if c =? 34 then 92 :: 34 :: quote_body r
      else if c =? 92 then 92 :: 92 :: quote_body r
      else if c =? 8 then 92 :: 98 :: quote_body r
      else if c =? 12 then 92 :: 102 :: quote_body r
      else if c =? 10 then 92 :: 110 :: quote_body r
      else if c =? 13 then 92 :: 114 :: quote_body r
      else if c =? 9 then 92 :: 116 :: quote_body r
      else if c <? 32 then u_escape c ++ quote_body r
      else if is_high c then
        match r with
        | d :: r' =>
            if is_low d then c :: d :: quote_body r'
            else u_escape c ++ quote_body r
        | [] => u_escape c
        end
      else if is_low c then u_escape c ++ quote_body r
      else c :: quote_body r
  end.

Definition quote (s : jsstring) : jsstring := 34 :: quote_body s ++ [34].

Fixpoint join (sep : code_unit) (l : list jsstring) : jsstring :=
  match l with
  | [] => []
  | [x] => x
  | x :: l' => x ++ sep :: join sep l'
  end.

Definition number_text (m e : Z) : jsstring :=
  if (0 <=? e)%Z then Z_toString (m * 10 ^ e)
  else Z_toString m ++ 101 :: Z_toString e.

Fixpoint stringify (v : json) : jsstring :=
  match v with
  | JNull => js "null"
  | JBool true => js "true"
  | JBool false => js "false"
  | JNum m e => number_text m e
  | JStr s => quote s
  | JArr items => 91 :: join 44 (List.map stringify items) ++ [93]
  | JObj props =>
      123 :: join 44 (List.map (fun kv =>
               match kv with (k, x) => quote k ++ 58 :: stringify x end) props)
          ++ [125]
  end.

(** *** Reading JSON text *)

Definition is_json_ws (c : code_unit) : bool :=
  (c =? 32) || (c =? 9) || (c =? 10) || (c =? 13).

Fixpoint skip_ws (s : jsstring) : jsstring :=
  match s with
  | c :: r => if is_json_ws c then skip_ws r else s
  | [] => []
  end.

Definition is_digit (c : code_unit) : bool := (48 <=? c) && (c <=? 57).

Definition hex_value (c : code_unit) : option N :=
  if is_digit c then Some (c - 48)
  else if (97 <=? c) && (c <=? 102) then Some (c - 87)
  else if (65 <=? c) && (c <=? 70) then Some (c - 55)
  else None.

Definition hex4 (a b c d : code_unit) : option code_unit :=
  match hex_value a, hex_value b, hex_value c, hex_value d with
  | Some x, Some y, Some z, Some w => Some (((x * 16 + y) * 16 + z) * 16 + w)
  | _, _, _, _ => None
  end.

(** The longest prefix of digits, and what follows it. *)
Fixpoint span_digits (s : jsstring) : jsstring * jsstring :=
  match s with
  | c :: r =>
      if is_digit c then let (ds, r') := span_digits r in (c :: ds, r')
      else ([], s)
  | [] => ([], [])
  end.

Definition digits_value (ds : jsstring) : Z :=
  fold_left (fun a c => (10 * a + Z.of_N (c - 48))%Z) ds 0%Z.

Definition is_nil {A : Type} (l : list A) : bool :=
  match l with [] => true | _ => false end.

Definition parse_fraction (s : jsstring) : option (jsstring * jsstring) :=
  match s with
  | c :: r =>
      if c =? 46 then
        let (f, r') := span_digits r in
        if is_nil f then None else Some (f, r')
      else Some ([], s)
  | [] => Some ([], [])
  end.

Definition parse_exponent (s : jsstring) : option (Z * jsstring) :=
  match s with
  | c :: r =>
      if (c =? 101) || (c =? 69) then
        let (sgn, r1) :=
          match r with
          | d :: r' => if d =? 43 then (1%Z, r')
                       else if d =? 45 then ((-1)%Z, r') else (1%Z, r)
          | [] => (1%Z, r)
          end in
        let (ds, r2) := span_digits r1 in
        if is_nil ds then None else Some ((sgn * digits_value ds)%Z, r2)
      else Some (0%Z, s)
  | [] => Some (0%Z, [])
  end.

Definition parse_number (s : jsstring) : option (json * jsstring) :=
  let (sgn, s1) :=
    match s with
    | c :: r => if c =? 45 then ((-1)%Z, r) else (1%Z, s)
    | [] => (1%Z, s)
    end in
  let (int, s2) := span_digits s1 in
  match int with
  | [] => None
  | c :: more =>
      if (c =? 48) && negb (is_nil more) then None
      else
        match parse_fraction s2 with
        | None => None
        | Some (frac, s3) =>
            match parse_exponent s3 with
            | None => None
            | Some (ex, s4) =>
                Some (JNum (sgn * digits_value (int ++ frac))
                           (ex - Z.of_nat (List.length frac)), s4)
            end
        end
  end.

(** After the opening quote; [acc] holds the code units read, last first. *)
Fixpoint parse_string_body (s acc : jsstring) : option (jsstring * jsstring) :=
  match s with
  | [] => None
  | c :: r =>
      if c =? 34 then Some (rev acc, r)
      else if c =? 92 then
        match r with
        | [] => None
        | e :: r' =>
            if e =? 34 then parse_string_body r' (34 :: acc)
            else if e =? 92 then parse_string_body r' (92 :: acc)
            else if e =? 47 then parse_string_body r' (47 :: acc)
            else if e =? 98 then parse_string_body r' (8 :: acc)
            else if e =? 102 then parse_string_body r' (12 :: acc)
            else if e =? 110 then parse_string_body r' (10 :: acc)
            else if e =? 114 then parse_string_body r' (13 :: acc)
            else if e =? 116 then parse_string_body r' (9 :: acc)
            else if e =? 117 then
              match r' with
              | a :: b :: x :: y :: r'' =>
                  match hex4 a b x y with
                  | Some u => parse_string_body r'' (u :: acc)
                  | None => None
                  end
              | _ => None
              end
            else None
        end
      else if c <? 32 then None
      else parse_string_body r (c :: acc)
  end.

Fixpoint strip_prefix (p s : jsstring) : option jsstring :=
  match p, s with
  | [], _ => Some s
  | a :: p', b :: s' => if a =? b then strip_prefix p' s' else None
  | _ :: _, [] => None
  end.

Section Containers.
(** The parser of values, one nesting level down. *)
Variable parse_inner : jsstring -> option (json * jsstring).

(** Elements after [[] or [,]; [k] bounds their number. *)
Fixpoint parse_elements (k : nat) (s : jsstring) (acc : list json)
  : option (list json * jsstring) :=
  match k with
  | O => None
  | S k' =>
      match parse_inner s with
      | None => None
      | Some (v, r) =>
          match skip_ws r with
          | c :: r' =>
              if c =? 44 then parse_elements k' r' (v :: acc)
              else if c =? 93 then Some (rev (v :: acc), r')
              else None
          | [] => None
          end
      end
  end.

(** Members after [{] or [,].  A repeated key keeps its place and takes
    the later value. *)
Fixpoint parse_members (k : nat) (s : jsstring) (acc : list (jsstring * json))
  : option (list (jsstring * json) * jsstring) :=
  match k with
  | O => None
  | S k' =>
      match skip_ws s with
      | q :: r0 =>
          if q =? 34 then
            match parse_string_body r0 [] with
            | None => None
            | Some (key, r1) =>
                match skip_ws r1 with
                | c :: r2 =>
                    if c =? 58 then
                      match parse_inner r2 with
                      | None => None
                      | Some (v, r3) =>
                          match skip_ws r3 with
                          | d :: r4 =>
                              if d =? 44 then parse_members k' r4 (set_prop key v acc)
                              else if d =? 125 then Some (set_prop key v acc, r4)
                              else None
                          | [] => None
                          end
                      end
                    else None
                | [] => None
                end
            end
          else None
      | [] => None
      end
  end.
End Containers.

Fixpoint parse_value (fuel : nat) (s : jsstring) : option (json * jsstring) :=
  match fuel with
  | O => None
  | S n =>
      match skip_ws s with
      | [] => None
      | c :: r =>
          if c =? 34 then
            match parse_string_body r [] with
            | Some (str, r') => Some (JStr str, r')
            | None => None
            end
          else if c =? 91 then
            match skip_ws r with
            | d :: r' =>
                if d =? 93 then Some (JArr [], r')
                else
                  match parse_elements (parse_value n) (List.length r) r [] with
                  | Some (items, r'') => Some (JArr items, r'')
                  | None => None
                  end
            | [] => None
            end
          else if c =? 123 then
            match skip_ws r with
            | d :: r' =>
                if d =? 125 then Some (JObj [], r')
                else
                  match parse_members (parse_value n) (List.length r) r [] with
                  | Some (props, r'') => Some (JObj props, r'')
                  | None => None
                  end
            | [] => None
            end
          else
            match strip_prefix (js "null") (c :: r),
                  strip_prefix (js "true") (c :: r),
                  strip_prefix (js "false") (c :: r) with
            | Some r', _, _ => Some (JNull, r')
            | _, Some r', _ => Some (JBool true, r')
            | _, _, Some r' => Some (JBool false, r')
            | None, None, None => parse_number (c :: r)
            end
      end
  end.

(** [JSON.parse]: one value, then nothing but white space. *)
Definition parse (s : jsstring) : completion json :=
  match parse_value (S (List.length s)) s with
  | Some (v, r) => if is_nil (skip_ws r) then Normal v else Throw SyntaxError
  | None => Throw SyntaxError
  end.

(** *** Dates in the format [toISOString] writes *)

Local Open Scope Z_scope.

Definition msPerDay : Z := 86400000.

(** Year, month and day of the proleptic Gregorian calendar for a number
    of days since 1970-01-01, and back. *)
Definition civil_from_days (days : Z) : Z * Z * Z :=
  let z := days + 719468 in
  let era := z / 146097 in
  let doe := z - era * 146097 in
  let yoe := (doe - doe / 1460 + doe / 36524 - doe / 146096) / 365 in
  let doy := doe - (365 * yoe + yoe / 4 - yoe / 100) in
  let mp := (5 * doy + 2) / 153 in
  let d := doy - (153 * mp + 2) / 5 + 1 in
  let m := if mp <? 10 then mp + 3 else mp - 9 in
  let y := yoe + era * 400 in
  (if m <=? 2 then y + 1 else y, m, d).

Definition days_from_civil (y m d : Z) : Z :=
  let y' := if m <=? 2 then y - 1 else y in
  let era := y' / 400 in
  let yoe := y' - era * 400 in
  let doy := (153 * (if 2 <? m then m - 3 else m + 9) + 2) / 5 + d - 1 in
  let doe := yoe * 365 + yoe / 4 - yoe / 100 + doy in
  era * 146097 + doe - 719468.

(** The last [width] decimal digits of a natural number, zeros in front
    where it has fewer. *)
Fixpoint pad (width : nat) (n : Z) : jsstring :=
  match width with
  | O => []
  | S w => pad w (n / 10) ++ [Z.to_N (48 + n mod 10)]
  end.

Definition year_text (y : Z) : jsstring :=
  if (0 <=? y) && (y <=? 9999) then pad 4 y
  else (if y <? 0 then 45%N else 43%N) :: pad 6 (Z.abs y).

(** [Date.prototype.toISOString] of a valid time value. *)
Definition toISOString (tv : Z) : jsstring :=
  let ms := tv mod msPerDay in
  match civil_from_days (tv / msPerDay) with
  | (y, m, d) =>
      year_text y ++ 45%N :: pad 2 m ++ 45%N :: pad 2 d
        ++ 84%N :: pad 2 (ms / 3600000)
        ++ 58%N :: pad 2 (ms / 60000 mod 60)
        ++ 58%N :: pad 2 (ms / 1000 mod 60)
        ++ 46%N :: pad 3 (ms mod 1000) ++ [90%N]
  end.

(** TimeClip *)
Definition TimeClip (tv : Z) : Date :=
  if Z.abs tv <=? 8640000000000000 then DateOf tv else InvalidDate.

(** Exactly [k] digits. *)
Fixpoint take_digits (k : nat) (s : jsstring) (acc : Z) : option (Z * jsstring) :=
  match k with
  | O => Some (acc, s)
  | S k' =>
      match s with
      | c :: r =>
          if is_digit c then take_digits k' r (10 * acc + Z.of_N (c - 48))
          else None
      | [] => None
      end
  end.

Definition expect (c : code_unit) (s : jsstring) : option jsstring :=
  match s with
  | d :: r => if N.eqb c d then Some r else None
  | [] => None
  end.

(** A year, month and day that name a day of the calendar: the ones the
    conversion to days and back gives again. *)
Definition is_civil (y m d : Z) : bool :=
  match civil_from_days (days_from_civil y m d) with
  | (y', m', d') => (y' =? y) && (m' =? m) && (d' =? d)
  end.

Definition parse_year (s : jsstring) : option (Z * jsstring) :=
  match s with
  | c :: r =>
      if N.eqb c 43 then take_digits 6 r 0
      else if N.eqb c 45 then
        match take_digits 6 r 0 with
        | Some (y, r') => if y =? 0 then None else Some (- y, r')
        | None => None
        end
      else take_digits 4 s 0
  | [] => None
  end.

(** A fixed layout of digit fields and separators. *)
Inductive item : Type := Digits (k : nat) | Lit (c : code_unit).

Fixpoint scan (layout : list item) (s : jsstring) : option (list Z * jsstring) :=
  match layout with
  | [] => Some ([], s)
  | Digits k :: layout' =>
      match take_digits k s 0 with
      | Some (n, r) =>
          match scan layout' r with
          | Some (ns, r') => Some (n :: ns, r')
          | None => None
          end
      | None => None
      end
  | Lit c :: layout' =>
      match expect c s with
      | Some r => scan layout' r
      | None => None
      end
  end.

(** [-MM-DDTHH:mm:ss.sssZ] *)
Definition after_year : list item :=
  [Lit 45; Digits 2; Lit 45; Digits 2; Lit 84; Digits 2; Lit 58; Digits 2;
   Lit 58; Digits 2; Lit 46; Digits 3; Lit 90]%N.

(** [Date.parse] on [YYYY-MM-DDTHH:mm:ss.sssZ], the year possibly written
    with a sign and six digits. *)
Definition parseDate (s : jsstring) : Date :=
  match parse_year s with
  | Some (y, r) =>
      match scan after_year r with
      | Some ([m; d; hh; mm; ss; ms], []) =>
          if is_civil y m d
             && ((hh <=? 23) || ((hh =? 24) && (mm =? 0) && (ss =? 0) && (ms =? 0)))
             && (mm <=? 59) && (ss <=? 59)
          then TimeClip (days_from_civil y m d * msPerDay
                         + hh * 3600000 + mm * 60000 + ss * 1000 + ms)
          else InvalidDate
      | _ => InvalidDate
      end
  | None => InvalidDate
  end.

(** [new Date(v)] for a number: truncated, then clipped. *)
Definition dateOfValue (v : json) : completion Date :=
  match v with
  | JNum m e =>
      Normal (TimeClip (if 0 <=? e then m * 10 ^ e else Z.quot m (10 ^ (- e))))
  | _ => Normal InvalidDate
  end.

Definition platform : Platform :=
  {| JSON_parse := parse;
     JSON_stringify := stringify;
     Date_toISOString := toISOString;
     Date_parse := parseDate;
     Date_ofValue := dateOfValue |}.

(** *** Reading back what was written *)

(** The parser [pv] reads the text [t] as the value [v], whatever follows. *)
Definition reads (pv : jsstring -> option (json * jsstring)) (t : jsstring) (v : json)
  : Prop :=
  forall rest, pv (t ++ rest) = Some (v, rest).

(** A member of an object: its key, the text of its value, its value. *)
Definition member_text (m : jsstring * jsstring * json) : jsstring :=
  match m with (key, t, _) => quote key ++ 58%N :: t end.

Definition member_reads (pv : jsstring -> option (json * jsstring))
  (m : jsstring * jsstring * json) : Prop :=
  match m with (_, t, v) => reads pv t v end.

Definition add_member (acc : list (jsstring * json)) (m : jsstring * jsstring * json)
  : list (jsstring * json) :=
  match m with (key, _, v) => set_prop key v acc end.

(** The members of the document of a task. *)
Definition todo_members (t : Todo) : list (jsstring * jsstring * json) :=
  [ (js "id", quote (id t), JStr (id t));
    (js "text", quote (text t), JStr (text t));
    (js "completed", stringify (JBool (completed t)), JBool (completed t));
    (js "createdAt", stringify (Date_toJSON platform (createdAt t)),
     Date_toJSON platform (createdAt t)) ].

End Ref.

(** ** Runs of the component *)

(** What can happen to the mounted component: the load effect reading the
    slot, a change of the add box, and the calls of the handlers. *)
Inductive Action : Type :=
| Load (saved : option jsstring)
| ChangeNewTodo (t : jsstring)
| AddTodo (now created : Z)
| DeleteTodo (id' : jsstring)
| ToggleTodo (id' : jsstring)
| StartEditing (todo : Todo)
| UpdateDraft (t : jsstring)
| SaveEdit
| CancelEdit
| SetFilter (f : Filter).

Definition perform (P : Platform) (a : Action) (s : State) : option State :=
  match a with
  | Load saved => option_map fst (load_state P saved s)
  | ChangeNewTodo t => Some (setNewTodo t s)
  | AddTodo now created => Some (addTodo now created s)
  | DeleteTodo id' => Some (deleteTodo id' s)
  | ToggleTodo id' => Some (toggleTodo id' s)
  | StartEditing todo => Some (startEditing todo s)
  | UpdateDraft t => Some (updateDraft t s)
  | SaveEdit => Some (saveEdit s)
  | CancelEdit => Some (cancelEdit s)
  | SetFilter f => Some (setFilter f s)
  end.

Fixpoint run (P : Platform) (l : list Action) (s : State) : option State :=
  match l with
  | [] => Some s
  | a :: l' =>
      match perform P a s with
      | Some s' => run P l' s'
      | None => None
      end
  end.

(** A run in which every action meets a side condition [G] in the state it
    is performed in. *)
Fixpoint admissible (G : State -> Action -> Prop) (P : Platform)
  (l : list Action) (s : State) : Prop :=
  match l with
  | [] => True
  | a :: l' =>
      G s a /\
      match perform P a s with
      | Some s' => admissible G P l' s'
      | None => True
      end
  end.

(** The two invariants of the data model. *)
Definition unique_ids (ts : list Todo) : Prop := NoDup (List.map id ts).

Definition texts_committed (ts : list Todo) : Prop :=
  Forall (fun t => blank (text t) = false) ts.

(** A subsequence: some elements left out, the others in their order. *)
Inductive subseq {A : Type} : list A -> list A -> Prop :=
| subseq_nil : subseq [] []
| subseq_skip : forall x l1 l2, subseq l1 l2 -> subseq l1 (x :: l2)
| subseq_keep : forall x l1 l2, subseq l1 l2 -> subseq (x :: l1) (x :: l2).

(** ** Side conditions and the specification's vocabulary *)

(** Following the specification (External interfaces): the slot holds a
    serialized array of task records, each
    [{id: string, text: string, completed: boolean, createdAt: string}]. *)
Definition is_task_record (v : json) : bool :=
  match v with
  | JObj props =>
      match get_prop (js "id") props, get_prop (js "text") props,
            get_prop (js "completed") props, get_prop (js "createdAt") props with
      | Some (JStr _), Some (JStr _), Some (JBool _), Some (JStr _) => true
      | _, _, _, _ => false
      end
  | _ => false
  end.

Definition is_snapshot (v : json) : bool :=
  match v with
  | JArr items => forallb is_task_record items
  | _ => false
  end.

(** Following the specification: deserialization fails on malformed data,
    and any shape mismatch counts as a failure. *)
Definition spec_deserialization_fails (P : Platform) (saved : jsstring) : Prop :=
  match JSON_parse P saved with
  | Throw _ => True
  | Normal v => is_snapshot v = false
  end.

(** What a task is after its [createdAt] went through [toJSON] and
    [new Date]: an Invalid Date is written as [null], which reads back as
    the epoch. *)
Definition reloaded (P : Platform) (t : Todo) : Todo :=
  {| id := id t; text := text t; completed := completed t;
     createdAt := match createdAt t with
                  | DateOf tv => Date_parse P (Date_toISOString P tv)
                  | InvalidDate => DateOf 0
                  end |}.

(** The platform reads the time value [tv] back from its ISO string. *)
Definition reads_back (P : Platform) (t : Todo) : Prop :=
  exists tv, createdAt t = DateOf tv /\
             Date_parse P (Date_toISOString P tv) = DateOf tv.

(** The task list a load would install. *)
Definition loaded_todos (P : Platform) (saved : option jsstring) : option (list Todo) :=
  match load P saved with
  | Loaded todosWithDates => as_Todos todosWithDates
  | _ => None
  end.

(** Side condition for the uniqueness of ids: an [addTodo] that adds a task
    happens at a clock reading whose decimal string no task carries, and a
    load installs a list with distinct ids. *)
Definition keeps_ids_unique (P : Platform) (s : State) (a : Action) : Prop :=
  match a with
  | AddTodo now _ =>
      trim (newTodo s) = [] \/ ~ In (Z_toString now) (List.map id (todos s))
  | Load saved => forall ts, loaded_todos P saved = Some ts -> unique_ids ts
  | _ => True
  end.

(** Side condition for the texts: a load installs texts that are neither
    empty nor white space only. *)
Definition keeps_texts_committed (P : Platform) (s : State) (a : Action) : Prop :=
  match a with
  | Load saved => forall ts, loaded_todos P saved = Some ts -> texts_committed ts
  | _ => True
  end.

(** ** Concrete snapshots and runs *)

Module Examples.

(** An array holding one record without any field. *)
Definition shapeless : jsstring := jq "[{}]".

Definition not_json : jsstring := js "{oops".

Definition task1 : Todo :=
  {| id := js "1700000000000"; text := js "Buy milk"; completed := false;
     createdAt := DateOf 1700000000123 |}.

Definition task2 : Todo :=
  {| id := js "1700000050000"; text := js "Call Bob"; completed := true;
     createdAt := DateOf 1700000050001 |}.

(** A task whose [createdAt] is an Invalid Date, and the snapshot, without
    a [createdAt], that loads as it. *)
Definition undated : Todo :=
  {| id := js "1"; text := js "a"; completed := false; createdAt := InvalidDate |}.

Definition undated_snapshot : jsstring :=
  jq "[{'id':'1','text':'a','completed':false}]".

(** Two records with the same id. *)
Definition twins_snapshot : jsstring :=
  jq "[{'id':'1','text':'a','completed':false,'createdAt':'2023-11-14T22:13:20.123Z'},{'id':'1','text':'b','completed':true,'createdAt':'2023-11-14T22:14:10.001Z'}]".

(** A record whose text is one space. *)
Definition blank_snapshot : jsstring :=
  jq "[{'id':'1','text':' ','completed':false,'createdAt':'2023-11-14T22:13:20.123Z'}]".

(** Two tasks added while the clock shows the same millisecond. *)
Definition same_millisecond : list Action :=
  [ ChangeNewTodo (js "A"); AddTodo 1700000000000 1700000000000;
    ChangeNewTodo (js "B"); AddTodo 1700000000000 1700000000000 ].

(** A session: nothing saved yet, two tasks added, the first one edited
    and completed, the second one deleted. *)
Definition session : list Action :=
  [ Load None;
    ChangeNewTodo (js " Buy milk "); AddTodo 1700000000000 1700000000000;
    ChangeNewTodo (js "Call Bob"); AddTodo 1700000050000 1700000050001;
    StartEditing {| id := js "1700000000000"; text := js "Buy milk";
                    completed := false; createdAt := DateOf 1700000000000 |};
    UpdateDraft (js "Buy oat milk "); SaveEdit;
    ToggleTodo (js "1700000000000");
    SetFilter active;
    DeleteTodo (js "1700000050000") ].

End Examples.

(** ** Keyboard handlers *)

(** [if (editingId)]: [null] and the empty string are falsy. *)
Definition truthy (e : option jsstring) : bool :=
  match e with
  | Some (_ :: _) => true
  | _ => false
  end.

(** [handleKeyDown], the [onKeyDown] of the add box; [key] is [e.key], and
    [now] and [created] are the clock readings [addTodo] takes if it is
    called. *)
Definition handleKeyDown (key : jsstring) (now created : Z) (s : State) : State :=
  if str_eqb key (js "Enter") then
    if truthy (editingId s) then saveEdit s else addTodo now created s
  else s.

(** The [onKeyDown] of the edit box:
    [if (e.key === 'Enter') saveEdit(); if (e.key === 'Escape') cancelEdit();] *)
Definition editKeyDown (key : jsstring) (s : State) : State :=
  let s1 := if str_eqb key (js "Enter") then saveEdit s else s in
  if str_eqb key (js "Escape") then cancelEdit s1 else s1.

(** ** Runs of the user interface *)

(** The edit box is rendered only for the task whose id is [editingId]: the
    draft changes only while a session is open. *)
Definition draft_in_session (s : State) (a : Action) : Prop :=
  match a with
  | UpdateDraft _ => editingId s <> None
  | _ => True
  end.

(** No snapshot is there to load: the slot is [null] or the empty string. *)
Definition nothing_saved (a : Action) : Prop :=
  match a with
  | Load (Some (_ :: _)) => False
  | _ => True
  end.

(** The readings of [Date.now()] handed to the [addTodo] calls of a run. *)
Fixpoint add_times (l : list Action) : list Z :=
  match l with
  | [] => []
  | AddTodo now _ :: l' => now :: add_times l'
  | _ :: l' => add_times l'
  end.

(** [todo] with its completion mark negated, and with another text. *)
Definition toggled (todo : Todo) : Todo :=
  {| id := id todo; text := text todo;
     completed := negb (completed todo); createdAt := createdAt todo |}.

Definition retexted (draft : jsstring) (todo : Todo) : Todo :=
  {| id := id todo; text := draft;
     completed := completed todo; createdAt := createdAt todo |}.

(** An element of the parsed array on which the callback of [map] throws
    nothing: not [null], and its [createdAt], if it is a record, missing,
    [null], a boolean or a string. *)
Definition revives_quietly (todo : json) : bool :=
  match todo with
  | JNull => false
  | JObj props =>
      match get_prop (js "createdAt") props with
      | None | Some JNull | Some (JBool _) | Some (JStr _) => true
      | _ => false
      end
  | _ => true
  end.

(** ** Strings: equality and trimming *)

Lemma str_eqb_eq (a b : jsstring) : str_eqb a b = true <-> a = b.
Proof.
  revert b; induction a as [|x a IH]; intros [|y b]; simpl; split;
    try congruence; try discriminate.
  - intros H. apply andb_true_iff in H as [Hxy Hab].
    apply N.eqb_eq in Hxy. apply IH in Hab. congruence.
  - intros H. injection H as -> ->. rewrite N.eqb_refl. simpl. now apply IH.
Qed.

Lemma str_eqb_refl (a : jsstring) : str_eqb a a = true.
Proof. now apply str_eqb_eq. Qed.

Lemma str_eqb_neq (a b : jsstring) : str_eqb a b = false <-> a <> b.
Proof.
  split.
  - intros H E. apply str_eqb_eq in E. congruence.
  - intros H. destruct (str_eqb a b) eqn:E; [|reflexivity].
    apply str_eqb_eq in E. contradiction.
Qed.

Lemma str_eqb_nil (a : jsstring) : str_eqb a [] = true <-> a = [].
Proof. apply str_eqb_eq. Qed.

(** [trimStart] leaves nothing, or something that starts with a code unit
    that is not white space. *)
Lemma trimStart_head (s : jsstring) :
  trimStart s = [] \/ exists c r, trimStart s = c :: r /\ is_ws c = false.
Proof.
  induction s as [|c s IH]; simpl; [now left|].
  destruct (is_ws c) eqn:E; [exact IH|].
  right. now exists c, s.
Qed.

Lemma trimStart_blank (s : jsstring) : trimStart s = [] <-> blank s = true.
Proof.
  induction s as [|c s IH]; simpl; [tauto|].
  destruct (is_ws c); simpl; [exact IH|]. split; discriminate.
Qed.

(** What [trimStart] removes is white space, and the rest is left as is. *)
Lemma trimStart_split (s : jsstring) :
  exists p, s = p ++ trimStart s /\ blank p = true.
Proof.
  induction s as [|c s [p [E B]]]; simpl.
  - now exists [].
  - destruct (is_ws c) eqn:W.
    + exists (c :: p). simpl. rewrite W, B. split; [congruence | reflexivity].
    + now exists [].
Qed.

Lemma blank_app (a b : jsstring) : blank (a ++ b) = blank a && blank b.
Proof. apply forallb_app. Qed.

Lemma blank_rev (a : jsstring) : blank (rev a) = blank a.
Proof.
  induction a as [|c a IH]; simpl; [reflexivity|].
  rewrite blank_app, IH. simpl. rewrite andb_true_r. apply andb_comm.
Qed.

(** [s.trim()] is [s] without a white prefix and a white suffix, and it is
    empty, or starts and ends with a code unit that is not white space. *)
Lemma trim_split (s : jsstring) :
  exists p q, s = p ++ trim s ++ q /\ blank p = true /\ blank q = true.
Proof.
  unfold trim, trimEnd.
  destruct (trimStart_split s) as [p [E B]].
  destruct (trimStart_split (rev (trimStart s))) as [q [E' B']].
  exists p, (rev q). repeat split; [|assumption|now rewrite blank_rev].
  rewrite <- rev_app_distr, <- E', rev_involutive. exact E.
Qed.

Lemma trim_last (s : jsstring) :
  trim s = [] \/ exists r c, trim s = r ++ [c] /\ is_ws c = false.
Proof.
  unfold trim, trimEnd.
  destruct (trimStart_head (rev (trimStart s))) as [E | [c [r [E W]]]].
  - left. now rewrite E.
  - right. exists (rev r), c. rewrite E. simpl. now split.
Qed.

Lemma trim_first (s : jsstring) :
  trim s = [] \/ exists c r, trim s = c :: r /\ is_ws c = false.
Proof.
  destruct (trimStart_head s) as [E | [c [r [E W]]]].
  - left. unfold trim. now rewrite E.
  - destruct (trim_last s) as [T | [r' [c' [T W']]]]; [now left|].
    right. unfold trim, trimEnd in *. rewrite E in *.
    destruct (trimStart_split (rev (c :: r))) as [q [Eq Bq]].
    assert (H : c :: r = rev (trimStart (rev (c :: r))) ++ rev q).
    { rewrite <- rev_app_distr, <- Eq. now rewrite rev_involutive. }
    destruct (rev (trimStart (rev (c :: r)))) as [|x l] eqn:R.
    + destruct r'; discriminate.
    + simpl in H. injection H as <- _. now exists c, l.
Qed.

(** A trimmed text that is not empty is not white space only. *)
Lemma trim_committed (s : jsstring) : trim s <> [] -> blank (trim s) = false.
Proof.
  intros H. destruct (trim_first s) as [E | [c [r [E W]]]]; [contradiction|].
  rewrite E. simpl. now rewrite W.
Qed.

(** The trimmed form is empty exactly for the empty and the all-white texts. *)
Lemma trim_nil_blank (s : jsstring) : trim s = [] <-> blank s = true.
Proof.
  split.
  - intros H. destruct (trim_split s) as [p [q [E [Bp Bq]]]].
    rewrite H in E. simpl in E. rewrite E, blank_app, Bp, Bq. reflexivity.
  - intros H. apply trimStart_blank in H. unfold trim. now rewrite H.
Qed.

(** ** The handlers on the task list *)

Lemma filter_id_absent (id' : jsstring) (ts : list Todo) :
  ~ In id' (List.map id ts) ->
  List.filter (fun todo => negb (str_eqb (id todo) id')) ts = ts.
Proof.
  induction ts as [|t ts IH]; simpl; intros H; [reflexivity|].
  destruct (str_eqb (id t) id') eqn:E.
  - apply str_eqb_eq in E. tauto.
  - simpl. rewrite IH; tauto.
Qed.

Lemma map_toggle_absent (id' : jsstring) (ts : list Todo) :
  ~ In id' (List.map id ts) ->
  List.map (fun todo =>
    if str_eqb (id todo) id'
    then {| id := id todo; text := text todo;
            completed := negb (completed todo); createdAt := createdAt todo |}
    else todo) ts = ts.
Proof.
  induction ts as [|t ts IH]; simpl; intros H; [reflexivity|].
  destruct (str_eqb (id t) id') eqn:E.
  - apply str_eqb_eq in E. tauto.
  - rewrite IH; tauto.
Qed.

Lemma setTodos_same (s : State) : setTodos (todos s) s = s.
Proof. now destruct s. Qed.

Lemma toggleTodo_twice (id' : jsstring) (s : State) :
  toggleTodo id' (toggleTodo id' s) = s.
Proof.
  destruct s as [ts n f e et]. unfold toggleTodo, setTodos. simpl. f_equal.
  rewrite map_map. rewrite <- (map_id ts) at 2. apply map_ext.
  intros [i t c d]. simpl.
  destruct (str_eqb i id') eqn:E; simpl; rewrite E;
    [rewrite negb_involutive|]; reflexivity.
Qed.

(** C3, as amended: for every text [t] whose trimmed form is not empty and
    every state, [add t] puts exactly one new task in front of the tasks that
    were there, which stay as they were and in their order; the new task is
    not completed, its text is [t] trimmed, its creation time is the clock
    reading, and its id is the decimal string of the millisecond clock
    reading, which is a fresh id whenever no task carries that string yet. *)
Theorem add_prepends_new_task (t : jsstring) (now created : Z) (s : State) :
  trim t <> [] ->
  exists task,
    todos (add t now created s) = task :: todos s /\
    List.length (todos (add t now created s)) = S (List.length (todos s)) /\
    completed task = false /\
    text task = trim t /\
    createdAt task = DateOf created /\
    id task = Z_toString now /\
    (~ In (Z_toString now) (List.map id (todos s)) ->
     ~ In (id task) (List.map id (todos s))).
Proof.
  intros H. unfold add, addTodo. simpl.
  destruct (str_eqb (trim t) []) eqn:E.
  - apply str_eqb_eq in E. contradiction.
  - eexists. simpl. repeat split; auto.
Qed.

Lemma add_prepends_new_task_witness :
  exists task,
    todos (add (js " Buy milk ") 1700000000000 1700000000001 initial)
      = task :: todos initial /\
    List.length (todos (add (js " Buy milk ") 1700000000000 1700000000001 initial))
      = S (List.length (todos initial)) /\
    completed task = false /\
    text task = trim (js " Buy milk ") /\
    createdAt task = DateOf 1700000000001 /\
    id task = Z_toString 1700000000000 /\
    (~ In (Z_toString 1700000000000) (List.map id (todos initial)) ->
     ~ In (id task) (List.map id (todos initial))).
Proof.
  apply (@add_prepends_new_task (js " Buy milk ") 1700000000000 1700000000001 initial).
  vm_compute. discriminate.
Defined.

(** C3 as stated fails on the freshness of the id: two tasks added while the
    clock shows the same millisecond get the same id. *)
Lemma add_id_not_fresh :
  let s := add (js "A") 1700000000000 1700000000000 initial in
  trim (js "B") <> [] /\
  exists task,
    todos (add (js "B") 1700000000000 1700000000000 s) = task :: todos s /\
    In (id task) (List.map id (todos s)).
Proof.
  simpl. split.
  - vm_compute. discriminate.
  - eexists. split; [vm_compute; reflexivity|]. vm_compute. now left.
Qed.

(** C4: in a state with an edit session whose draft trims to the empty
    string, [saveEdit] changes nothing: every task is as it was, and the
    session stays open on the same task with the same draft. *)
Theorem saveEdit_empty_draft (s : State) (i : jsstring) :
  editingId s = Some i ->
  trim (editText s) = [] ->
  saveEdit s = s /\
  todos (saveEdit s) = todos s /\
  editingId (saveEdit s) = Some i /\
  editText (saveEdit s) = editText s.
Proof.
  intros Hi Ht. unfold saveEdit. rewrite Ht. simpl. auto.
Qed.

Lemma saveEdit_empty_draft_witness :
  let s := updateDraft (js "   ")
             (startEditing (mkTodo (js "7") (js "old") false (DateOf 5))
                (setTodos [mkTodo (js "7") (js "old") false (DateOf 5)] initial)) in
  saveEdit s = s /\
  todos (saveEdit s) = todos s /\
  editingId (saveEdit s) = Some (js "7") /\
  editText (saveEdit s) = editText s.
Proof.
  apply saveEdit_empty_draft; reflexivity.
Defined.

(** C8: for every task list and every id carried by a task of it, toggling
    that id flips the task's [completed], and toggling it a second time gives
    back the original value; the whole state is then as it was. *)
Theorem toggle_involution (id' : jsstring) (s : State) (n : nat) (t : Todo) :
  nth_error (todos s) n = Some t ->
  id t = id' ->
  (exists t1, nth_error (todos (toggleTodo id' s)) n = Some t1 /\
              completed t1 = negb (completed t)) /\
  (exists t2, nth_error (todos (toggleTodo id' (toggleTodo id' s))) n = Some t2 /\
              completed t2 = completed t) /\
  toggleTodo id' (toggleTodo id' s) = s.
Proof.
  intros Hn Hid. split; [|split].
  - unfold toggleTodo. simpl. rewrite nth_error_map, Hn. simpl.
    rewrite Hid, str_eqb_refl. eexists. split; reflexivity.
  - rewrite toggleTodo_twice. now exists t.
  - apply toggleTodo_twice.
Qed.

Lemma toggle_involution_witness :
  let s := setTodos [mkTodo (js "2") (js "B") true (DateOf 9);
                     mkTodo (js "1") (js "A") false (DateOf 5)] initial in
  let t := mkTodo (js "1") (js "A") false (DateOf 5) in
  (exists t1, nth_error (todos (toggleTodo (js "1") s)) 1 = Some t1 /\
              completed t1 = negb (completed t)) /\
  (exists t2, nth_error (todos (toggleTodo (js "1") (toggleTodo (js "1") s))) 1 = Some t2 /\
              completed t2 = completed t) /\
  toggleTodo (js "1") (toggleTodo (js "1") s) = s.
Proof.
  apply toggle_involution; reflexivity.
Defined.

(** C9: for every task list and every id that no task of it carries,
    [toggleTodo] and [deleteTodo] leave the list, and the whole state,
    unchanged. *)
Theorem toggle_delete_absent_id (id' : jsstring) (s : State) :
  ~ In id' (List.map id (todos s)) ->
  toggleTodo id' s = s /\ deleteTodo id' s = s.
Proof.
  intros H. unfold toggleTodo, deleteTodo.
  rewrite map_toggle_absent, filter_id_absent by assumption.
  split; apply setTodos_same.
Qed.

Lemma toggle_delete_absent_id_witness :
  let s := setTodos [mkTodo (js "2") (js "B") true (DateOf 9);
                     mkTodo (js "1") (js "A") false (DateOf 5)] initial in
  toggleTodo (js "3") s = s /\ deleteTodo (js "3") s = s.
Proof.
  apply toggle_delete_absent_id. simpl. intros [H | [H | []]]; discriminate H.
Defined.

(** C10: for every text whose trimmed form is empty, the empty text and
    the texts made of white space among them, [add] leaves the task list
    unchanged. *)
Theorem add_blank_noop (t : jsstring) (now created : Z) (s : State) :
  trim t = [] ->
  todos (add t now created s) = todos s /\
  addTodo now created (setNewTodo t s) = setNewTodo t s.
Proof.
  intros H. unfold add, addTodo. simpl. rewrite H. simpl. auto.
Qed.

Lemma add_blank_noop_witness :
  let s := setTodos [mkTodo (js "1") (js "A") false (DateOf 5)] initial in
  (todos (add (js "   ") 1700000000000 1700000000000 s) = todos s /\
   addTodo 1700000000000 1700000000000 (setNewTodo (js "   ") s)
     = setNewTodo (js "   ") s) /\
  (todos (add [] 1700000000000 1700000000000 s) = todos s /\
   addTodo 1700000000000 1700000000000 (setNewTodo [] s) = setNewTodo [] s).
Proof.
  split; apply add_blank_noop; reflexivity.
Defined.

(** The scenarios of the specification. *)
Example scenario_buy_milk :
  let s := add (js "Buy milk") 1700000000000 1700000000000 initial in
  List.map (fun t => (text t, completed t)) (todos s) = [(js "Buy milk", false)] /\
  (activeCount s, completedCount s, List.length (todos s)) = (1, 0, 1)%nat.
Proof. split; reflexivity. Qed.

Example scenario_newest_first :
  let s := add (js "B") 1700000000007 1700000000007
             (add (js "A") 1700000000000 1700000000000 initial) in
  List.map text (todos s) = [js "B"; js "A"].
Proof. reflexivity. Qed.

Example scenario_toggle :
  let s := toggleTodo (js "1700000000000")
             (add (js "X") 1700000000000 1700000000000 initial) in
  (activeCount s, completedCount s, List.length (todos s)) = (0, 1, 1)%nat.
Proof. reflexivity. Qed.

(** ** The filtered view *)

Lemma filter_subseq {A : Type} (p : A -> bool) (l : list A) :
  subseq (List.filter p l) l.
Proof.
  induction l as [|x l IH]; simpl; [constructor|].
  destruct (p x); now constructor.
Qed.

Lemma filter_all_true {A : Type} (p : A -> bool) (l : list A) :
  Forall (fun x => p x = true) (List.filter p l).
Proof.
  apply Forall_forall. intros x H. now apply filter_In in H.
Qed.

(** Every subsequence of [l] made of elements that satisfy [p] is a
    subsequence of [filter p l]: the filter leaves none of them out. *)
Lemma subseq_filter_greatest {A : Type} (p : A -> bool) (r l : list A) :
  subseq r l -> Forall (fun x => p x = true) r -> subseq r (List.filter p l).
Proof.
  induction 1 as [|x l1 l2 H IH|x l1 l2 H IH]; intros F; simpl.
  - constructor.
  - destruct (p x); [apply subseq_skip|]; now apply IH.
  - inversion F as [|? ? Hx F']; subst. rewrite Hx. apply subseq_keep. now apply IH.
Qed.

Lemma filter_true {A : Type} (l : list A) : List.filter (fun _ => true) l = l.
Proof. induction l as [|x l IH]; simpl; congruence. Qed.

(** C6: for every task list, the visible tasks under the filter [active] are
    exactly the tasks that are not completed, in the order of the list: a
    subsequence of the list, made of tasks that are not completed, and
    containing every such subsequence; under [completed] the same with the
    completed tasks; under [all] the list itself. *)
Theorem visible_tasks_by_filter (s : State) :
  (subseq (filteredTodos (setFilter active s)) (todos s) /\
   Forall (fun t => completed t = false) (filteredTodos (setFilter active s)) /\
   forall r, subseq r (todos s) -> Forall (fun t => completed t = false) r ->
             subseq r (filteredTodos (setFilter active s))) /\
  (subseq (filteredTodos (setFilter completed_ s)) (todos s) /\
   Forall (fun t => completed t = true) (filteredTodos (setFilter completed_ s)) /\
   forall r, subseq r (todos s) -> Forall (fun t => completed t = true) r ->
             subseq r (filteredTodos (setFilter completed_ s))) /\
  filteredTodos (setFilter all s) = todos s.
Proof.
  unfold filteredTodos. simpl. repeat split.
  - apply filter_subseq.
  - eapply Forall_impl; [|apply filter_all_true]. simpl. intros t H.
    now apply negb_true_iff.
  - intros r Hr Fr. apply subseq_filter_greatest; [assumption|].
    eapply Forall_impl; [|exact Fr]. simpl. intros t H. now apply negb_true_iff.
  - apply filter_subseq.
  - apply filter_all_true.
  - intros r Hr Fr. now apply subseq_filter_greatest.
  - apply filter_true.
Qed.

(** ** The load effect *)

Lemma load_some (P : Platform) (saved : jsstring) :
  saved <> [] ->
  load P (Some saved) =
    match deserialize P saved with
    | Normal todosWithDates => Loaded todosWithDates
    | Throw e => Failed e
    end.
Proof. destruct saved; [contradiction | reflexivity]. Qed.

(** The [catch] block runs exactly when the [try] block throws. *)
Lemma load_failed_iff (P : Platform) (saved : jsstring) (e : exn) :
  saved <> [] ->
  (load P (Some saved) = Failed e <-> deserialize P saved = Throw e).
Proof.
  intros Hne. rewrite load_some by assumption.
  destruct (deserialize P saved); split; congruence.
Qed.

(** Where an exception of [map] comes from: the callback throws on some
    element after returning on all the elements before it. *)
Lemma map_throwing_throw {A B : Type} (f : A -> completion B) (l : list A) (e : exn) :
  map_throwing f l = Throw e <->
  exists before x after,
    l = before ++ x :: after /\
    (forall y, In y before -> exists b, f y = Normal b) /\
    f x = Throw e.
Proof.
  split.
  - revert e. induction l as [|a l IH]; simpl; intros e H; [discriminate|].
    destruct (f a) as [b|e'] eqn:Fa.
    + destruct (map_throwing f l) as [ys|e''] eqn:M; [discriminate|].
      injection H as <-.
      destruct (IH _ eq_refl) as [before [x [after [E [Hb Hx]]]]].
      exists (a :: before), x, after. subst l. repeat split; auto.
      intros y [<- | Hy]; [eauto | auto].
    + injection H as <-. exists [], a, l. repeat split; auto. intros y [].
  - intros [before [x [after [E [Hb Hx]]]]]. subst l.
    induction before as [|y before IH]; simpl.
    + now rewrite Hx.
    + destruct (Hb y (or_introl eq_refl)) as [b Hy]. rewrite Hy.
      rewrite IH; [reflexivity|]. intros z Hz. apply Hb. now right.
Qed.

(** The callback throws on [null], and where [new Date] throws. *)
Lemma revive_throw (P : Platform) (todo : json) (e : exn) :
  revive P todo = Throw e <->
  (todo = JNull /\ e = TypeError) \/
  (exists c, read_createdAt todo = Normal c /\ new_Date P c = Throw e).
Proof.
  unfold revive. destruct (read_createdAt todo) as [c|e'] eqn:R.
  - destruct (new_Date P c) as [d|e''] eqn:D.
    + split; [discriminate|]. intros [[-> _] | [c' [Hc Hd]]]; [discriminate|].
      congruence.
    + split.
      * intros H. injection H as <-. right. eauto.
      * intros [[-> _] | [c' [Hc Hd]]]; [discriminate|]. congruence.
  - destruct todo; try discriminate. simpl in R. injection R as <-. split.
    + intros H. injection H as <-. now left.
    + intros [[_ ->] | [c' [Hc _]]]; [reflexivity | discriminate].
Qed.

(** The three ways the [try] block throws. *)
Lemma deserialize_throw (P : Platform) (saved : jsstring) (e : exn) :
  deserialize P saved = Throw e <->
  JSON_parse P saved = Throw e \/
  (exists v, JSON_parse P saved = Normal v /\
             (forall items, v <> JArr items) /\ e = TypeError) \/
  (exists items, JSON_parse P saved = Normal (JArr items) /\
                 map_throwing (revive P) items = Throw e).
Proof.
  unfold deserialize. destruct (JSON_parse P saved) as [v|e'].
  - destruct v as [| b | m x | str | its | props];
      try (split;
           [ intros H; injection H as <-; right; left; eexists;
             split; [reflexivity | split; [intros ? ?; discriminate | reflexivity]]
           | intros [H | [[v [Hv [Hn ->]]] | [l [Hi Hm]]]];
             [discriminate | reflexivity | discriminate] ]).
    split.
    + intros H. right. right. eauto.
    + intros [H | [[v [Hv [Hn ->]]] | [l [Hi Hm]]]].
      * discriminate.
      * injection Hv as <-. exfalso. now apply (Hn its).
      * injection Hi as <-. exact Hm.
  - split.
    + intros H. injection H as <-. now left.
    + intros [H | [[v [Hv _]] | [l [Hi _]]]]; congruence.
Qed.

(** A record with any fields at all is revived without an exception when its
    [createdAt] is missing, [null], a boolean or a string: no check of the
    shape is made. *)
Lemma revive_object (P : Platform) (props : list (jsstring * json)) :
  match get_prop (js "createdAt") props with
  | None | Some JNull | Some (JBool _) | Some (JStr _) => True
  | _ => False
  end ->
  exists d, revive P (JObj props)
            = Normal (set_prop (js "createdAt") (VDate d) (spread (JObj props))).
Proof.
  unfold revive. simpl read_createdAt. cbv iota.
  destruct (get_prop (js "createdAt") props) as [[| | | | |]|]; simpl;
    intros H; try contradiction; eauto.
Qed.

(** C1, as amended: for every persisted snapshot string that is not empty
    and on which the deserialization throws (the text is rejected by
    [JSON.parse], the parsed value is not an array, or reviving an element
    throws, as it does on [null]), the load effect catches the exception,
    logs it, and leaves the task list as it was, which at startup is empty;
    no exception leaves the effect.  (The empty string is falsy: the effect
    does not enter the [try] block on it.) *)
Theorem load_catches_exceptions (P : Platform) (saved : jsstring) (e : exn) (s : State) :
  saved <> [] ->
  deserialize P saved = Throw e ->
  load P (Some saved) = Failed e /\
  load_state P (Some saved) s = Some (s, [e]) /\
  exists st, load_state P (Some saved) initial = Some (st, [e]) /\ todos st = [].
Proof.
  intros Hne Hd. assert (L : load P (Some saved) = Failed e).
  { rewrite load_some by assumption. now rewrite Hd. }
  unfold load_state. rewrite L. repeat split. now exists initial.
Qed.

Lemma load_catches_exceptions_witness :
  (load Ref.platform (Some Examples.not_json) = Failed SyntaxError /\
   load_state Ref.platform (Some Examples.not_json) initial
     = Some (initial, [SyntaxError]) /\
   exists st, load_state Ref.platform (Some Examples.not_json) initial
              = Some (st, [SyntaxError]) /\ todos st = []) /\
  (load Ref.platform (Some (jq "{'id':'1'}")) = Failed TypeError /\
   load_state Ref.platform (Some (jq "{'id':'1'}")) initial
     = Some (initial, [TypeError]) /\
   exists st, load_state Ref.platform (Some (jq "{'id':'1'}")) initial
              = Some (st, [TypeError]) /\ todos st = []) /\
  (load Ref.platform (Some (jq "[{'id':'1'}, null]")) = Failed TypeError /\
   load_state Ref.platform (Some (jq "[{'id':'1'}, null]")) initial
     = Some (initial, [TypeError]) /\
   exists st, load_state Ref.platform (Some (jq "[{'id':'1'}, null]")) initial
              = Some (st, [TypeError]) /\ todos st = []).
Proof.
  split; [|split]; apply load_catches_exceptions;
    try discriminate; vm_compute; reflexivity.
Defined.

(** C1 as stated fails in two ways.  On a shape mismatch: the snapshot
    [[{}]] is an array of one record that has none of the fields of a task,
    so deserialization fails in the specification's sense, yet nothing is
    thrown or logged and the record is installed: the task list is not
    empty.  On the empty string: [JSON.parse] rejects it, but the effect
    tests [if (saved)] first and the empty string is falsy, so the [try]
    block is not entered and nothing is caught or logged. *)
Lemma shape_mismatch_not_caught :
  (spec_deserialization_fails Ref.platform Examples.shapeless /\
   load Ref.platform (Some Examples.shapeless)
     = Loaded [[(js "createdAt", VDate InvalidDate)]] /\
   forall e, load Ref.platform (Some Examples.shapeless) <> Failed e) /\
  (spec_deserialization_fails Ref.platform [] /\
   deserialize Ref.platform [] = Throw SyntaxError /\
   load Ref.platform (Some []) = NothingSaved /\
   load_state Ref.platform (Some []) initial = Some (initial, [])).
Proof.
  split; [split; [|split] | repeat split].
  - vm_compute. reflexivity.
  - vm_compute. reflexivity.
  - intros e. vm_compute. discriminate.
Qed.

(** ** Saving and loading again *)

Lemma map_throwing_normal {A B C : Type} (f : B -> completion C) (g : A -> B)
  (h : A -> C) (l : list A) :
  (forall x, f (g x) = Normal (h x)) ->
  map_throwing f (List.map g l) = Normal (List.map h l).
Proof.
  intros H. induction l as [|x l IH]; simpl; [reflexivity|].
  now rewrite H, IH.
Qed.

(** Reviving the document of a task gives the task back, its date having
    gone through [toJSON] and [new Date]. *)
Lemma revive_todo_toJSON (P : Platform) (t : Todo) :
  revive P (todo_toJSON P t) = Normal (todo_object (reloaded P t)).
Proof. destruct t as [i tx c [tv|]]; reflexivity. Qed.

Lemma as_Todo_todo_object (t : Todo) : as_Todo (todo_object t) = Some t.
Proof. destruct t; reflexivity. Qed.

Lemma as_Todos_todo_objects (ts : list Todo) :
  as_Todos (List.map todo_object ts) = Some ts.
Proof.
  induction ts as [|t ts IH]; [reflexivity|].
  cbn [List.map as_Todos]. now rewrite as_Todo_todo_object, IH.
Qed.

(** What loading a saved list gives, on a platform whose parser reads the
    saved text back as the document that was written. *)
Lemma load_saved (P : Platform) (ts : list Todo) :
  save P ts <> [] ->
  JSON_parse P (save P ts) = Normal (todos_toJSON P ts) ->
  load P (Some (save P ts)) = Loaded (List.map todo_object (List.map (reloaded P) ts)).
Proof.
  intros Hne Hp. rewrite load_some by assumption.
  unfold deserialize. rewrite Hp. unfold todos_toJSON.
  rewrite (map_throwing_normal (revive P) (todo_toJSON P)
             (fun t => todo_object (reloaded P t))).
  - now rewrite map_map.
  - apply revive_todo_toJSON.
Qed.

Lemma reloaded_reads_back (P : Platform) (ts : list Todo) :
  Forall (reads_back P) ts -> List.map (reloaded P) ts = ts.
Proof.
  induction 1 as [|t ts [tv [Hc Hp]] F IH]; simpl; [reflexivity|].
  rewrite IH. f_equal. destruct t as [i tx c d]. simpl in Hc. subst d.
  unfold reloaded. simpl. now rewrite Hp.
Qed.

(** Ids, texts and completion marks survive saving and loading whatever the
    dates are. *)
Lemma reloaded_fields (P : Platform) (ts : list Todo) :
  List.map id (List.map (reloaded P) ts) = List.map id ts /\
  List.map text (List.map (reloaded P) ts) = List.map text ts /\
  List.map completed (List.map (reloaded P) ts) = List.map completed ts.
Proof. rewrite !map_map. repeat split; now apply map_ext. Qed.

(** C5, as amended: for every task list whose [createdAt] values are all
    valid dates, on a platform that parses the saved text back into the
    document written and each ISO string back into its time value,
    serializing the list and deserializing the text puts a list equal to the
    original, timestamps included, into the state. *)
Theorem save_load_roundtrip (P : Platform) (ts : list Todo) (s : State) :
  save P ts <> [] ->
  JSON_parse P (save P ts) = Normal (todos_toJSON P ts) ->
  Forall (reads_back P) ts ->
  load P (Some (save P ts)) = Loaded (List.map todo_object ts) /\
  load_state P (Some (save P ts)) s = Some (setTodos ts s, []).
Proof.
  intros Hne Hp Hd.
  assert (L : load P (Some (save P ts)) = Loaded (List.map todo_object ts)).
  { rewrite load_saved by assumption. now rewrite reloaded_reads_back. }
  split; [exact L|].
  unfold load_state. now rewrite L, as_Todos_todo_objects.
Qed.

Lemma save_load_roundtrip_witness :
  load Ref.platform (Some (save Ref.platform [Examples.task2; Examples.task1]))
    = Loaded (List.map todo_object [Examples.task2; Examples.task1]) /\
  load_state Ref.platform
    (Some (save Ref.platform [Examples.task2; Examples.task1])) initial
    = Some (setTodos [Examples.task2; Examples.task1] initial, []).
Proof.
  apply save_load_roundtrip.
  - vm_compute. discriminate.
  - vm_compute. reflexivity.
  - repeat constructor; eexists; (split; [reflexivity | vm_compute; reflexivity]).
Defined.

(** C5 as stated fails on a task whose [createdAt] is an Invalid Date, as a
    task loaded from a record without [createdAt] is: it is saved with
    [createdAt] [null], and [null] loads as the epoch. *)
Lemma invalid_date_not_restored :
  run Ref.platform [Load (Some Examples.undated_snapshot)] initial
    = Some (setTodos [Examples.undated] initial) /\
  load_state Ref.platform (Some (save Ref.platform [Examples.undated])) initial
    = Some (setTodos [ {| id := js "1"; text := js "a"; completed := false;
                          createdAt := DateOf 0 |} ] initial, []) /\
  load_state Ref.platform (Some (save Ref.platform [Examples.undated])) initial
    <> Some (setTodos [Examples.undated] initial, []).
Proof.
  split; [|split].
  - vm_compute. reflexivity.
  - vm_compute. reflexivity.
  - vm_compute. discriminate.
Qed.

(** The same on every platform whose parser reads the saved text back. *)
Lemma invalid_date_reloads_as_epoch (P : Platform) (t : Todo) :
  createdAt t = InvalidDate ->
  save P [t] <> [] ->
  JSON_parse P (save P [t]) = Normal (todos_toJSON P [t]) ->
  loaded_todos P (Some (save P [t]))
    = Some [ {| id := id t; text := text t; completed := completed t;
                createdAt := DateOf 0 |} ].
Proof.
  intros Hc Hne Hp. unfold loaded_todos. rewrite load_saved by assumption.
  rewrite as_Todos_todo_objects. simpl. unfold reloaded. now rewrite Hc.
Qed.

(** ** The reference platform reads back what it writes *)

Module RefFacts.
Import Ref.
Local Open Scope Z_scope.

Lemma civil_roundtrip (days : Z) :
  match civil_from_days days with
  | (y, m, d) => days_from_civil y m d = days /\ 1 <= m <= 12 /\ 1 <= d <= 31
  end.
Proof.
  unfold civil_from_days, days_from_civil. cbv zeta.
  set (z := days + 719468).
  set (era := z / 146097).
  set (doe := z - era * 146097).
  assert (Hdoe : 0 <= doe <= 146096) by (subst doe era; Z.div_mod_to_equations; lia).
  set (yoe := (doe - doe / 1460 + doe / 36524 - doe / 146096) / 365).
  assert (Hy : 0 <= yoe <= 399 /\ 0 <= doe - (365 * yoe + yoe / 4 - yoe / 100) <= 365)
    by (subst yoe; Z.div_mod_to_equations; lia).
  set (doy := doe - (365 * yoe + yoe / 4 - yoe / 100)) in *.
  set (mp := (5 * doy + 2) / 153).
  assert (Hmp : 0 <= mp <= 11) by (subst mp; Z.div_mod_to_equations; lia).
  set (d := doy - (153 * mp + 2) / 5 + 1).
  assert (Hd : 1 <= d <= 31) by (subst d mp; Z.div_mod_to_equations; lia).
  destruct (mp <? 10) eqn:E.
  - apply Z.ltb_lt in E.
    replace (mp + 3 <=? 2) with false by (symmetry; apply Z.leb_gt; lia).
    replace (2 <? mp + 3) with true by (symmetry; apply Z.ltb_lt; lia).
    replace (mp + 3 - 3) with mp by lia.
    replace ((yoe + era * 400) / 400) with era by (Z.div_mod_to_equations; lia).
    replace (yoe + era * 400 - era * 400) with yoe by lia.
    repeat split; lia.
  - apply Z.ltb_ge in E.
    replace (mp - 9 <=? 2) with true by (symmetry; apply Z.leb_le; lia).
    replace (2 <? mp - 9) with false by (symmetry; apply Z.ltb_ge; lia).
    replace (mp - 9 + 9) with mp by lia.
    replace (yoe + era * 400 + 1 - 1) with (yoe + era * 400) by lia.
    replace ((yoe + era * 400) / 400) with era by (Z.div_mod_to_equations; lia).
    replace (yoe + era * 400 - era * 400) with yoe by lia.
    repeat split; lia.
Qed.

(** The year of a day within the range of time values. *)
Lemma civil_year_bound (days : Z) :
  -100000000 <= days <= 100000000 ->
  -999999 <= fst (fst (civil_from_days days)) <= 999999.
Proof.
  intros H. unfold civil_from_days. cbv zeta.
  set (z := days + 719468).
  set (era := z / 146097).
  set (doe := z - era * 146097).
  assert (Hdoe : 0 <= doe <= 146096) by (subst doe era; Z.div_mod_to_equations; lia).
  assert (He : -700 <= era <= 700) by (subst era z; Z.div_mod_to_equations; lia).
  set (yoe := (doe - doe / 1460 + doe / 36524 - doe / 146096) / 365).
  assert (Hy : 0 <= yoe <= 399) by (subst yoe; Z.div_mod_to_equations; lia).
  simpl. destruct (_ <=? 2); lia.
Qed.

Lemma is_civil_civil_from_days (days : Z) :
  match civil_from_days days with
  | (y, m, d) => is_civil y m d = true
  end.
Proof.
  pose proof (civil_roundtrip days) as H.
  destruct (civil_from_days days) as [[y m] d] eqn:E.
  destruct H as [H _]. unfold is_civil. rewrite H, E.
  now rewrite !Z.eqb_refl.
Qed.

(** Reading [k] padded digits. *)
Lemma take_digits_pad (k j : nat) (n : Z) (rest : jsstring) (acc : Z) :
  0 <= n ->
  take_digits (k + j) (pad k n ++ rest) acc
  = take_digits j rest (acc * 10 ^ Z.of_nat k + n mod 10 ^ Z.of_nat k).
Proof.
  revert j n rest acc. induction k as [|k IH]; intros j n rest acc Hn.
  - simpl. rewrite Z.mod_1_r. f_equal. lia.
  - cbn [pad]. rewrite <- app_assoc. cbn [app].
    replace (S k + j)%nat with (k + S j)%nat by lia.
    rewrite IH by (apply Z.div_pos; lia).
    cbn [take_digits].
    assert (Hm : 0 <= n mod 10 < 10) by (apply Z.mod_pos_bound; lia).
    replace (is_digit (Z.to_N (48 + n mod 10))) with true.
    2:{ symmetry. unfold is_digit. apply andb_true_iff. split; apply N.leb_le; lia. }
    f_equal.
    replace (Z.of_N (Z.to_N (48 + n mod 10) - 48)) with (n mod 10) by lia.
    rewrite Nat2Z.inj_succ, Z.pow_succ_r by lia.
    rewrite (Z.rem_mul_r n 10 (10 ^ Z.of_nat k)) by lia.
    lia.
Qed.

Lemma take_digits_pad_exact (k : nat) (n : Z) (rest : jsstring) :
  0 <= n < 10 ^ Z.of_nat k ->
  take_digits k (pad k n ++ rest) 0 = Some (n, rest).
Proof.
  intros H. replace k with (k + 0)%nat at 1 by lia.
  rewrite take_digits_pad by lia. simpl. now rewrite Z.mod_small.
Qed.

Lemma pad_head_digit (k : nat) (n : Z) (rest : jsstring) :
  0 <= n ->
  exists c r, pad (S k) n ++ rest = c :: r /\ (48 <= c <= 57)%N.
Proof.
  revert n rest. induction k as [|k IH]; intros n rest Hn.
  - cbn [pad app]. eexists _, _. split; [reflexivity|].
    assert (0 <= n mod 10 < 10) by (apply Z.mod_pos_bound; lia). lia.
  - change (pad (S (S k)) n) with (pad (S k) (n / 10) ++ [Z.to_N (48 + n mod 10)]).
    rewrite <- app_assoc. apply IH. apply Z.div_pos; lia.
Qed.

Lemma parse_year_text (y : Z) (rest : jsstring) :
  -999999 <= y <= 999999 ->
  parse_year (year_text y ++ rest) = Some (y, rest).
Proof.
  intros H. unfold year_text.
  destruct ((0 <=? y) && (y <=? 9999)) eqn:E.
  - apply andb_true_iff in E as [E1 E2]. apply Z.leb_le in E1, E2.
    destruct (pad_head_digit 3 rest E1) as [c [r [Ec Hc]]].
    unfold parse_year. rewrite Ec.
    replace (N.eqb c 43) with false by (symmetry; apply N.eqb_neq; lia).
    replace (N.eqb c 45) with false by (symmetry; apply N.eqb_neq; lia).
    rewrite <- Ec. apply take_digits_pad_exact. simpl. lia.
  - assert (Hy : y < 0 \/ 9999 < y).
    { apply andb_false_iff in E as [E | E];
        [apply Z.leb_gt in E | apply Z.leb_gt in E]; lia. }
    destruct (y <? 0) eqn:N.
    + apply Z.ltb_lt in N. cbn [app parse_year]. cbv beta iota.
      change (N.eqb 45 43) with false. change (N.eqb 45 45) with true. cbv iota.
      rewrite take_digits_pad_exact by (simpl; lia).
      replace (Z.abs y =? 0) with false by (symmetry; apply Z.eqb_neq; lia).
      f_equal. f_equal. lia.
    + apply Z.ltb_ge in N. cbn [app parse_year]. cbv beta iota.
      change (N.eqb 43 43) with true. cbv iota.
      rewrite take_digits_pad_exact by (simpl; lia).
      f_equal. f_equal. lia.
Qed.

Lemma scan_after_year (m d hh mm ss ms : Z) :
  0 <= m < 100 -> 0 <= d < 100 -> 0 <= hh < 100 -> 0 <= mm < 100 ->
  0 <= ss < 100 -> 0 <= ms < 1000 ->
  scan after_year
    (45%N :: pad 2 m ++ 45%N :: pad 2 d ++ 84%N :: pad 2 hh ++ 58%N :: pad 2 mm
       ++ 58%N :: pad 2 ss ++ 46%N :: pad 3 ms ++ [90%N])
  = Some ([m; d; hh; mm; ss; ms], []).
Proof.
  intros Hm Hd Hh Hmm Hs Hms. unfold after_year.
  cbn [scan expect N.eqb Pos.eqb].
  rewrite (take_digits_pad_exact 2) by (simpl; lia). cbn [scan expect N.eqb Pos.eqb].
  rewrite (take_digits_pad_exact 2) by (simpl; lia). cbn [scan expect N.eqb Pos.eqb].
  rewrite (take_digits_pad_exact 2) by (simpl; lia). cbn [scan expect N.eqb Pos.eqb].
  rewrite (take_digits_pad_exact 2) by (simpl; lia). cbn [scan expect N.eqb Pos.eqb].
  rewrite (take_digits_pad_exact 2) by (simpl; lia). cbn [scan expect N.eqb Pos.eqb].
  rewrite (take_digits_pad_exact 3) by (simpl; lia). cbn [scan expect N.eqb Pos.eqb].
  reflexivity.
Qed.

(** [Date.parse] reads the time value back from what [toISOString] writes. *)
Lemma parseDate_toISOString (tv : Z) :
  Z.abs tv <= 8640000000000000 ->
  parseDate (toISOString tv) = DateOf tv.
Proof.
  intros H. unfold toISOString, parseDate.
  pose proof (civil_roundtrip (tv / msPerDay)) as R.
  pose proof (is_civil_civil_from_days (tv / msPerDay)) as C.
  assert (B : -100000000 <= tv / msPerDay <= 100000000)
    by (unfold msPerDay; Z.div_mod_to_equations; lia).
  pose proof (civil_year_bound B) as Y.
  destruct (civil_from_days (tv / msPerDay)) as [[y m] d].
  simpl in Y. destruct R as [R [Hm Hd]].
  set (ms := tv mod msPerDay).
  assert (Hms : 0 <= ms < 86400000) by (subst ms; apply Z.mod_pos_bound; reflexivity).
  cbv zeta. fold ms. rewrite parse_year_text by assumption.
  rewrite scan_after_year by (try lia; Z.div_mod_to_equations; lia).
  rewrite C. cbn [andb].
  replace (ms / 3600000 <=? 23) with true
    by (symmetry; apply Z.leb_le; Z.div_mod_to_equations; lia).
  replace (ms / 60000 mod 60 <=? 59) with true
    by (symmetry; apply Z.leb_le; Z.div_mod_to_equations; lia).
  replace (ms / 1000 mod 60 <=? 59) with true
    by (symmetry; apply Z.leb_le; Z.div_mod_to_equations; lia).
  cbn [andb orb].
  rewrite R.
  replace (tv / msPerDay * msPerDay + ms / 3600000 * 3600000
           + ms / 60000 mod 60 * 60000 + ms / 1000 mod 60 * 1000 + ms mod 1000)
    with tv by (subst ms; unfold msPerDay; Z.div_mod_to_equations; lia).
  unfold TimeClip. now replace (Z.abs tv <=? 8640000000000000) with true
    by (symmetry; apply Z.leb_le; lia).
Qed.

(** *** Strings *)

Lemma hex_value_hex_digit (n : N) :
  (n < 16)%N -> hex_value (hex_digit n) = Some n.
Proof.
  intros H.
  assert (C : In n [0; 1; 2; 3; 4; 5; 6; 7; 8; 9; 10; 11; 12; 13; 14; 15]%N).
  { simpl. lia. }
  simpl in C.
  repeat (destruct C as [<- | C]; [reflexivity|]). contradiction.
Qed.

Lemma hex4_digits (c : code_unit) :
  (c < 65536)%N ->
  hex4 (hex_digit (c / 4096)) (hex_digit ((c / 256) mod 16))
       (hex_digit ((c / 16) mod 16)) (hex_digit (c mod 16)) = Some c.
Proof.
  intros H. unfold hex4.
  rewrite !hex_value_hex_digit;
    try (apply N.mod_upper_bound; discriminate);
    try (apply N.Div0.div_lt_upper_bound; exact H).
  f_equal.
  change 4096%N with (16 * 16 * 16)%N. change 256%N with (16 * 16)%N.
  rewrite <- !N.Div0.div_div.
  pose proof (N.div_mod' c 16) as A.
  pose proof (N.div_mod' (c / 16) 16) as B.
  pose proof (N.div_mod' (c / 16 / 16) 16) as C.
  generalize dependent (c / 16 / 16 / 16)%N. intros q.
  generalize dependent ((c / 16 / 16) mod 16)%N. intros m2.
  generalize dependent (c / 16 / 16)%N. intros b.
  generalize dependent ((c / 16) mod 16)%N. intros m3.
  generalize dependent (c / 16)%N. intros a.
  generalize dependent (c mod 16)%N. intros m4. intros. lia.
Qed.

Lemma parse_u_escape (c : code_unit) (r acc : jsstring) :
  (c < 65536)%N ->
  parse_string_body (u_escape c ++ r) acc = parse_string_body r (c :: acc).
Proof.
  intros H. unfold u_escape. cbn [app parse_string_body].
  cbn [N.eqb Pos.eqb]. now rewrite hex4_digits.
Qed.

(** A code unit that [quote_body] copies is read as itself. *)
Lemma parse_copied (c : code_unit) (r acc : jsstring) :
  N.eqb c 34 = false -> N.eqb c 92 = false -> N.ltb c 32 = false ->
  parse_string_body (c :: r) acc = parse_string_body r (c :: acc).
Proof. intros E1 E2 E3. cbn [parse_string_body]. now rewrite E1, E2, E3. Qed.

Lemma surrogate_copied (c : code_unit) :
  is_high c = true \/ is_low c = true ->
  N.eqb c 34 = false /\ N.eqb c 92 = false /\ N.ltb c 32 = false.
Proof.
  unfold is_high, is_low. intros [H | H];
    apply andb_true_iff in H as [H1 H2]; apply N.leb_le in H1, H2;
    repeat split; try (apply N.eqb_neq; lia); apply N.ltb_ge; lia.
Qed.

Lemma surrogate_bound (c : code_unit) :
  is_high c = true \/ is_low c = true -> (c < 65536)%N.
Proof.
  unfold is_high, is_low. intros [H | H];
    apply andb_true_iff in H as [H1 H2]; apply N.leb_le in H1, H2; lia.
Qed.

(** The body of a string literal, up to the closing quote, is read back as
    the string it was written from. *)
Lemma parse_quote_body (n : nat) :
  forall s, (List.length s <= n)%nat ->
  forall rest acc,
    parse_string_body (quote_body s ++ 34%N :: rest) acc = Some (rev acc ++ s, rest).
Proof.
  induction n as [|n IH]; intros s Hs rest acc.
  - destruct s; [|simpl in Hs; lia]. simpl. now rewrite app_nil_r.
  - destruct s as [|c r]; [simpl; now rewrite app_nil_r|].
    simpl in Hs.
    assert (Step : forall acc', acc' = c :: acc ->
              parse_string_body (quote_body r ++ 34%N :: rest) acc'
              = Some (rev acc ++ c :: r, rest)).
    { intros acc' ->. rewrite IH by lia. simpl. now rewrite <- app_assoc. }
    cbn [quote_body].
    destruct (N.eqb c 34) eqn:E34.
    { apply N.eqb_eq in E34. subst c. cbn [app parse_string_body N.eqb Pos.eqb].
      now apply Step. }
    destruct (N.eqb c 92) eqn:E92.
    { apply N.eqb_eq in E92. subst c. cbn [app parse_string_body N.eqb Pos.eqb].
      now apply Step. }
    destruct (N.eqb c 8) eqn:E8.
    { apply N.eqb_eq in E8. subst c. cbn [app parse_string_body N.eqb Pos.eqb].
      now apply Step. }
    destruct (N.eqb c 12) eqn:E12.
    { apply N.eqb_eq in E12. subst c. cbn [app parse_string_body N.eqb Pos.eqb].
      now apply Step. }
    destruct (N.eqb c 10) eqn:E10.
    { apply N.eqb_eq in E10. subst c. cbn [app parse_string_body N.eqb Pos.eqb].
      now apply Step. }
    destruct (N.eqb c 13) eqn:E13.
    { apply N.eqb_eq in E13. subst c. cbn [app parse_string_body N.eqb Pos.eqb].
      now apply Step. }
    destruct (N.eqb c 9) eqn:E9.
    { apply N.eqb_eq in E9. subst c. cbn [app parse_string_body N.eqb Pos.eqb].
      now apply Step. }
    destruct (N.ltb c 32) eqn:E32.
    { apply N.ltb_lt in E32. rewrite <- app_assoc, parse_u_escape by lia.
      now apply Step. }
    destruct (is_high c) eqn:Eh.
    { pose proof (surrogate_bound c (or_introl Eh)) as Hc.
      destruct r as [|d r'].
      - rewrite parse_u_escape by assumption. reflexivity.
      - destruct (is_low d) eqn:El.
        + destruct (surrogate_copied d (or_intror El)) as [D1 [D2 D3]].
          cbn [app]. rewrite parse_copied by assumption.
          rewrite parse_copied by assumption.
          simpl in Hs. rewrite IH by lia. simpl. rewrite <- !app_assoc. reflexivity.
        + rewrite <- app_assoc, parse_u_escape by assumption. now apply Step. }
    destruct (is_low c) eqn:El.
    { pose proof (surrogate_bound c (or_intror El)) as Hc.
      rewrite <- app_assoc, parse_u_escape by assumption. now apply Step. }
    cbn [app]. rewrite parse_copied by assumption. now apply Step.
Qed.

Lemma parse_quote (s rest : jsstring) :
  parse_string_body (quote_body s ++ 34%N :: rest) [] = Some (s, rest).
Proof. apply (parse_quote_body (n:=List.length s)). lia. Qed.

(** *** Documents *)

Section Reading.
Variable pv : jsstring -> option (json * jsstring).

Lemma parse_members_join (ms : list (jsstring * jsstring * json)) :
  forall (k : nat) (acc : list (jsstring * json)) (rest : jsstring),
    ms <> [] -> (List.length ms <= k)%nat -> Forall (member_reads pv) ms ->
    parse_members pv k (join 44%N (List.map member_text ms) ++ 125%N :: rest) acc
    = Some (fold_left add_member ms acc, rest).
Proof.
  induction ms as [|[[key t] v] ms IH]; intros k acc rest Hne Hk F; [congruence|].
  inversion F as [|? ? Hr F']; subst. simpl in Hr.
  destruct k as [|k]; [simpl in Hk; lia|]. simpl in Hk.
  assert (Head : forall tail,
    parse_members pv (S k) (member_text (key, t, v) ++ tail) acc
    = match skip_ws tail with
      | d :: r4 =>
          if N.eqb d 44 then parse_members pv k r4 (set_prop key v acc)
          else if N.eqb d 125 then Some (set_prop key v acc, r4) else None
      | [] => None
      end).
  { intros tail. unfold member_text, quote. rewrite <- !app_assoc.
    cbn [app parse_members skip_ws is_json_ws N.eqb Pos.eqb orb].
    rewrite <- app_assoc. cbn [app]. rewrite parse_quote.
    cbn [skip_ws is_json_ws N.eqb Pos.eqb orb]. now rewrite Hr. }
  destruct ms as [|m ms].
  - cbn [List.map join fold_left]. rewrite Head. reflexivity.
  - change (join 44%N (List.map member_text ((key, t, v) :: m :: ms)))
      with (member_text (key, t, v) ++ 44%N :: join 44%N (List.map member_text (m :: ms))).
    rewrite <- app_assoc. rewrite Head.
    cbn [app skip_ws is_json_ws N.eqb Pos.eqb orb fold_left].
    apply IH; [discriminate | simpl in *; lia | assumption].
Qed.

Lemma parse_elements_join (docs : list (jsstring * json)) :
  forall (k : nat) (acc : list json) (rest : jsstring),
    docs <> [] -> (List.length docs <= k)%nat ->
    Forall (fun d => reads pv (fst d) (snd d)) docs ->
    parse_elements pv k (join 44%N (List.map fst docs) ++ 93%N :: rest) acc
    = Some (rev acc ++ List.map snd docs, rest).
Proof.
  induction docs as [|[t v] docs IH]; intros k acc rest Hne Hk F; [congruence|].
  inversion F as [|? ? Hr F']; subst. simpl in Hr.
  destruct k as [|k]; [simpl in Hk; lia|]. simpl in Hk.
  destruct docs as [|d docs].
  - cbn [List.map join fst snd parse_elements]. rewrite Hr.
    cbn [skip_ws is_json_ws N.eqb Pos.eqb orb]. reflexivity.
  - change (join 44%N (List.map fst ((t, v) :: d :: docs)))
      with (t ++ 44%N :: join 44%N (List.map fst (d :: docs))).
    rewrite <- app_assoc. cbn [parse_elements]. rewrite Hr.
    cbn [app skip_ws is_json_ws N.eqb Pos.eqb orb].
    rewrite IH; [|discriminate | simpl in *; lia | assumption].
    cbn [rev List.map snd]. now rewrite <- app_assoc.
Qed.

End Reading.

Lemma join_length (texts : list jsstring) (tail : jsstring) :
  Forall (fun t => t <> []) texts ->
  (List.length texts <= List.length (join 44%N texts ++ tail))%nat.
Proof.
  induction 1 as [|t texts Ht F IH]; [simpl; lia|].
  destruct texts as [|u texts].
  - cbn [join]. rewrite length_app. destruct t; [congruence | simpl; lia].
  - change (join 44%N (t :: u :: texts)) with (t ++ 44%N :: join 44%N (u :: texts)).
    rewrite <- app_assoc, length_app. cbn [app List.length] in *.
    destruct t; [congruence|]. cbn [List.length]. lia.
Qed.

(** String literals and the literals [true], [false] and [null]. *)
Lemma reads_string (n : nat) (s : jsstring) :
  reads (parse_value (S n)) (quote s) (JStr s).
Proof.
  intros rest. unfold quote.
  cbn [app parse_value skip_ws is_json_ws N.eqb Pos.eqb orb].
  rewrite <- app_assoc. cbn [app]. now rewrite parse_quote.
Qed.

Lemma reads_bool (n : nat) (b : bool) :
  reads (parse_value (S n)) (stringify (JBool b)) (JBool b).
Proof. intros rest. destruct b; reflexivity. Qed.

Lemma reads_null (n : nat) : reads (parse_value (S n)) (stringify JNull) JNull.
Proof. intros rest. reflexivity. Qed.

Lemma reads_date (n : nat) (d : Date) :
  reads (parse_value (S n)) (stringify (Date_toJSON platform d)) (Date_toJSON platform d).
Proof. destruct d as [tv|]; [apply reads_string | apply reads_null]. Qed.

Lemma stringify_todo (t : Todo) :
  stringify (todo_toJSON platform t)
  = 123%N :: join 44%N (List.map member_text (todo_members t)) ++ [125%N].
Proof. reflexivity. Qed.

(** An object and an array that are not empty. *)
Lemma parse_value_object (n : nat) (body r : jsstring) :
  body = 34%N :: r ->
  parse_value (S n) (123%N :: body)
  = match parse_members (parse_value n) (List.length body) body [] with
    | Some (props, r') => Some (JObj props, r')
    | None => None
    end.
Proof. intros ->. reflexivity. Qed.

Lemma parse_value_array (n : nat) (body r : jsstring) :
  body = 123%N :: r ->
  parse_value (S n) (91%N :: body)
  = match parse_elements (parse_value n) (List.length body) body [] with
    | Some (items, r') => Some (JArr items, r')
    | None => None
    end.
Proof. intros ->. reflexivity. Qed.

Lemma reads_todo (n : nat) (t : Todo) :
  reads (parse_value (S (S n))) (stringify (todo_toJSON platform t))
        (todo_toJSON platform t).
Proof.
  intros rest. rewrite stringify_todo.
  cbn [app]. rewrite <- app_assoc. cbn [app].
  erewrite parse_value_object by reflexivity.
  rewrite (parse_members_join (pv:=parse_value (S n)) (ms:=todo_members t)).
  - reflexivity.
  - discriminate.
  - etransitivity; [|apply join_length].
    + rewrite length_map. lia.
    + repeat constructor; discriminate.
  - repeat constructor; simpl;
      [apply reads_string | apply reads_string | apply reads_bool | apply reads_date].
Qed.

Lemma stringify_todo_nonempty (t : Todo) : stringify (todo_toJSON platform t) <> [].
Proof. discriminate. Qed.

(** [JSON.parse] reads a saved list back as the document that was written. *)
Lemma parse_save (ts : list Todo) :
  parse (save platform ts) = Normal (todos_toJSON platform ts).
Proof.
  unfold save, todos_toJSON. cbn [JSON_stringify platform stringify].
  destruct ts as [|t ts]; [reflexivity|].
  set (docs := List.map (fun x => (stringify (todo_toJSON platform x), todo_toJSON platform x))
                 (t :: ts)).
  assert (T : List.map stringify (List.map (todo_toJSON platform) (t :: ts))
              = List.map fst docs).
  { subst docs. rewrite !map_map. reflexivity. }
  assert (V : List.map (todo_toJSON platform) (t :: ts) = List.map snd docs).
  { subst docs. rewrite map_map. reflexivity. }
  rewrite T, V. clear T V. unfold parse.
  assert (Hne : docs <> []) by (subst docs; discriminate).
  assert (R : Forall (fun d => forall n, reads (parse_value (S (S n))) (fst d) (snd d)) docs).
  { subst docs. apply Forall_forall. intros x Hx.
    apply in_map_iff in Hx as [y [<- _]]. intros n. apply reads_todo. }
  assert (E : Forall (fun t => t <> []) (List.map fst docs)).
  { subst docs. apply Forall_forall. intros x Hx.
    apply in_map_iff in Hx as [? [<- Hx]]. apply in_map_iff in Hx as [y [<- _]].
    apply stringify_todo_nonempty. }
  assert (Hb : exists r, join 44%N (List.map fst docs) ++ [93%N] = 123%N :: r).
  { subst docs. cbn [List.map fst]. destruct ts; eexists; reflexivity. }
  clearbody docs. destruct Hb as [r Hb].
  remember (join 44%N (List.map fst docs) ++ [93%N]) as body eqn:Eb.
  assert (L : (List.length docs <= List.length body)%nat).
  { subst body. etransitivity; [|apply join_length; exact E]. now rewrite length_map. }
  assert (Hl : exists n, List.length body = S (S n)).
  { destruct r as [|c r].
    - exfalso. rewrite Hb in Eb.
      destruct (join 44%N (List.map fst docs)) as [|x [|y j]]; discriminate Eb.
    - rewrite Hb. simpl. eauto. }
  destruct Hl as [n Hl].
  cbn [List.length]. rewrite Hl.
  erewrite parse_value_array by exact Hb. rewrite Hl in L. rewrite Hl.
  subst body.
  rewrite (parse_elements_join (pv:=parse_value (S (S (S n)))) (docs:=docs)).
  - reflexivity.
  - assumption.
  - exact L.
  - eapply Forall_impl; [|exact R]. intros d Hd. apply Hd.
Qed.

(** Every saved list meets the conditions of the round trip on the
    reference platform when its dates are valid time values. *)
Lemma saved_reads_back (ts : list Todo) :
  Forall (fun t => exists tv, createdAt t = DateOf tv /\ Z.abs tv <= 8640000000000000) ts ->
  save platform ts <> [] /\
  JSON_parse platform (save platform ts) = Normal (todos_toJSON platform ts) /\
  Forall (reads_back platform) ts.
Proof.
  intros H. split; [discriminate|]. split; [apply parse_save|].
  eapply Forall_impl; [|exact H]. intros t [tv [Hc Hr]].
  exists tv. split; [assumption|]. now apply parseDate_toISOString.
Qed.

End RefFacts.

(** On the reference platform the round trip needs no assumption but the
    validity of the dates: every list of tasks with valid creation times is
    loaded back as it was saved. *)
Lemma reference_roundtrip (ts : list Todo) (s : State) :
  Forall (fun t => exists tv, createdAt t = DateOf tv /\ Z.abs tv <= 8640000000000000) ts ->
  load Ref.platform (Some (save Ref.platform ts)) = Loaded (List.map todo_object ts) /\
  load_state Ref.platform (Some (save Ref.platform ts)) s = Some (setTodos ts s, []).
Proof.
  intros H. destruct (RefFacts.saved_reads_back H) as [Hne [Hp Hd]].
  assert (L : load Ref.platform (Some (save Ref.platform ts))
              = Loaded (List.map todo_object ts)).
  { rewrite load_saved by assumption. now rewrite reloaded_reads_back. }
  split; [exact L|].
  unfold load_state. now rewrite L, as_Todos_todo_objects.
Qed.

(** ** Invariants along runs *)

Lemma run_invariant (Inv : list Todo -> Prop) (G : State -> Action -> Prop)
  (P : Platform) :
  (forall a s s', G s a -> Inv (todos s) -> perform P a s = Some s' -> Inv (todos s')) ->
  forall l s s',
    admissible G P l s -> Inv (todos s) -> run P l s = Some s' -> Inv (todos s').
Proof.
  intros Step. induction l as [|a l IH]; simpl; intros s s' Ha Hi Hr.
  - now injection Hr as <-.
  - destruct Ha as [Hg Ha]. destruct (perform P a s) as [s1|] eqn:E; [|discriminate].
    eapply IH; eauto.
Qed.

(** What a load does to the task list: nothing, or the list it installs. *)
Lemma perform_load (P : Platform) (saved : option jsstring) (s s' : State) :
  perform P (Load saved) s = Some s' ->
  s' = s \/ exists ts, loaded_todos P saved = Some ts /\ s' = setTodos ts s.
Proof.
  unfold perform, load_state, loaded_todos.
  destruct (load P saved) as [|objs|e]; simpl.
  - intros H. injection H as <-. now left.
  - destruct (as_Todos objs) as [ts|]; simpl; [|discriminate].
    intros H. injection H as <-. right. now exists ts.
  - intros H. injection H as <-. now left.
Qed.

Lemma map_id_toggled (id' : jsstring) (ts : list Todo) :
  List.map id (List.map (fun todo =>
    if str_eqb (id todo) id'
    then {| id := id todo; text := text todo;
            completed := negb (completed todo); createdAt := createdAt todo |}
    else todo) ts) = List.map id ts.
Proof.
  rewrite map_map. apply map_ext. intros t. now destruct (str_eqb (id t) id').
Qed.

Lemma map_id_edited (e : option jsstring) (draft : jsstring) (ts : list Todo) :
  List.map id (List.map (fun todo =>
    if is_editing e todo
    then {| id := id todo; text := draft;
            completed := completed todo; createdAt := createdAt todo |}
    else todo) ts) = List.map id ts.
Proof.
  rewrite map_map. apply map_ext. intros t. now destruct (is_editing e t).
Qed.

Lemma NoDup_map_filter {A B : Type} (f : A -> B) (p : A -> bool) (l : list A) :
  NoDup (List.map f l) -> NoDup (List.map f (List.filter p l)).
Proof.
  induction l as [|x l IH]; simpl; intros H; [assumption|].
  inversion H as [|? ? Hx Hl]; subst.
  destruct (p x); simpl; [|now apply IH].
  constructor; [|now apply IH].
  intros Hin. apply Hx. apply in_map_iff in Hin as [y [Hy Hin]].
  apply filter_In in Hin as [Hin _]. apply in_map_iff. eauto.
Qed.

(** A handler was performed: [H : perform P a s = Some s'] gives [s']. *)
Ltac performed H := simpl in H; injection H as <-.

Lemma perform_unique_ids (P : Platform) (a : Action) (s s' : State) :
  keeps_ids_unique P s a ->
  unique_ids (todos s) ->
  perform P a s = Some s' ->
  unique_ids (todos s').
Proof.
  unfold unique_ids.
  destruct a as [saved|t|now created|id'|id'|todo|t| | |f]; intros G U H;
    try (performed H; simpl; assumption).
  - apply perform_load in H as [-> | [ts [L ->]]]; [assumption|].
    simpl. now apply G.
  - performed H. unfold addTodo. simpl in G.
    destruct (str_eqb (trim (newTodo s)) []) eqn:E; [assumption|].
    simpl. destruct G as [G | G].
    + apply str_eqb_neq in E. contradiction.
    + now constructor.
  - performed H. simpl. now apply NoDup_map_filter.
  - performed H. simpl. now rewrite map_id_toggled.
  - performed H. unfold saveEdit.
    destruct (str_eqb (trim (editText s)) []); [assumption|].
    simpl. now rewrite map_id_edited.
Qed.

Lemma perform_texts_committed (P : Platform) (a : Action) (s s' : State) :
  keeps_texts_committed P s a ->
  texts_committed (todos s) ->
  perform P a s = Some s' ->
  texts_committed (todos s').
Proof.
  unfold texts_committed.
  destruct a as [saved|t|now created|id'|id'|todo|t| | |f]; intros G U H;
    try (performed H; simpl; assumption).
  - apply perform_load in H as [-> | [ts [L ->]]]; [assumption|].
    simpl. now apply G.
  - performed H. unfold addTodo.
    destruct (str_eqb (trim (newTodo s)) []) eqn:E; [assumption|].
    simpl. constructor; [|assumption]. simpl.
    apply trim_committed. now apply str_eqb_neq.
  - performed H. simpl.
    apply Forall_forall. intros t Ht. apply filter_In in Ht as [Ht _].
    revert t Ht. now apply Forall_forall.
  - performed H. simpl.
    apply Forall_forall. intros t Ht. apply in_map_iff in Ht as [t0 [<- Ht]].
    assert (B : blank (text t0) = false) by (revert t0 Ht; now apply Forall_forall).
    now destruct (str_eqb (id t0) id').
  - performed H. unfold saveEdit.
    destruct (str_eqb (trim (editText s)) []) eqn:E; [assumption|].
    simpl. apply Forall_forall. intros t Ht. apply in_map_iff in Ht as [t0 [<- Ht]].
    assert (B : blank (text t0) = false) by (revert t0 Ht; now apply Forall_forall).
    destruct (is_editing (editingId s) t0); [simpl|assumption].
    apply trim_committed. now apply str_eqb_neq.
Qed.

(** A snapshot the component saved itself meets both side conditions when
    the list it was saved from has the property. *)
Lemma own_snapshot_admissible (P : Platform) (ts : list Todo) (s : State) :
  save P ts <> [] ->
  JSON_parse P (save P ts) = Normal (todos_toJSON P ts) ->
  (unique_ids ts -> keeps_ids_unique P s (Load (Some (save P ts)))) /\
  (texts_committed ts -> keeps_texts_committed P s (Load (Some (save P ts)))).
Proof.
  intros Hne Hp.
  assert (L : loaded_todos P (Some (save P ts)) = Some (List.map (reloaded P) ts)).
  { unfold loaded_todos. rewrite load_saved by assumption.
    apply as_Todos_todo_objects. }
  simpl. rewrite L. split; intros H ts' E; injection E as <-.
  - unfold unique_ids. now rewrite (proj1 (reloaded_fields P ts)).
  - unfold texts_committed in *. apply Forall_forall. intros t Ht.
    apply in_map_iff in Ht as [t0 [<- Ht]]. simpl.
    revert t0 Ht. now apply Forall_forall.
Qed.

(** On the reference platform every snapshot the component saved is such a
    snapshot. *)
Lemma reference_snapshot_admissible (ts : list Todo) (s : State) :
  (unique_ids ts -> keeps_ids_unique Ref.platform s (Load (Some (save Ref.platform ts)))) /\
  (texts_committed ts ->
   keeps_texts_committed Ref.platform s (Load (Some (save Ref.platform ts)))).
Proof.
  apply own_snapshot_admissible; [discriminate | apply RefFacts.parse_save].
Qed.

(** C2, as amended: in every state reached from the empty list by a sequence
    of operations in which every [addTodo] that adds a task happens at a
    clock reading whose decimal string no task of the list carries, and every
    load installs a list with distinct ids, the ids of the tasks are pairwise
    distinct.  (Toggle, delete, the edit operations and the filter keep the
    ids as they are without any condition.) *)
Theorem ids_unique_along_runs (P : Platform) (l : list Action) (s : State) :
  admissible (keeps_ids_unique P) P l initial ->
  run P l initial = Some s ->
  unique_ids (todos s).
Proof.
  intros Ha Hr.
  eapply (@run_invariant unique_ids (keeps_ids_unique P) P);
    [ | exact Ha | constructor | exact Hr].
  intros a s0 s1. apply perform_unique_ids.
Qed.

Lemma ids_unique_along_runs_witness :
  exists s, run Ref.platform Examples.session initial = Some s /\
            unique_ids (todos s).
Proof.
  eexists. split; [vm_compute; reflexivity|].
  apply (@ids_unique_along_runs Ref.platform Examples.session).
  - simpl. repeat split; try discriminate.
    + right. intros [].
    + right. vm_compute. intros [H | []]. discriminate H.
  - vm_compute. reflexivity.
Defined.

(** C2 as stated fails: two tasks added while the clock shows the same
    millisecond get the same id, and a snapshot with two records of the
    same id is installed as it is. *)
Lemma duplicate_ids_reachable :
  (exists s, run Ref.platform Examples.same_millisecond initial = Some s /\
             ~ unique_ids (todos s)) /\
  (exists s, run Ref.platform [Load (Some Examples.twins_snapshot)] initial = Some s /\
             ~ unique_ids (todos s)).
Proof.
  split; eexists; (split; [vm_compute; reflexivity|]);
    intros H; vm_compute in H; inversion H as [|? ? Hn _]; apply Hn; now left.
Qed.

(** C7, as amended: in every state reached from the empty list by add,
    toggle, delete, the edit operations, the filter, and loads of snapshots
    whose texts are neither empty nor white space only, the text of every
    task is neither empty nor white space only.  (The load effect installs
    the texts of the snapshot without looking at them.) *)
Theorem texts_committed_along_runs (P : Platform) (l : list Action) (s : State) :
  admissible (keeps_texts_committed P) P l initial ->
  run P l initial = Some s ->
  texts_committed (todos s).
Proof.
  intros Ha Hr.
  eapply (@run_invariant texts_committed (keeps_texts_committed P) P);
    [ | exact Ha | constructor | exact Hr].
  intros a s0 s1. apply perform_texts_committed.
Qed.

Lemma texts_committed_along_runs_witness :
  exists s, run Ref.platform Examples.session initial = Some s /\
            texts_committed (todos s).
Proof.
  eexists. split; [vm_compute; reflexivity|].
  apply (@texts_committed_along_runs Ref.platform Examples.session).
  - simpl. repeat split; discriminate.
  - vm_compute. reflexivity.
Defined.

(** C7 as stated fails on a load: a snapshot holding a record whose text is
    one space puts a task with that text into the list. *)
Lemma blank_text_reachable :
  exists s, run Ref.platform [Load (Some Examples.blank_snapshot)] initial = Some s /\
            ~ texts_committed (todos s).
Proof.
  eexists. split; [vm_compute; reflexivity|].
  intros H. inversion H as [|? ? Hb _]. vm_compute in Hb. discriminate.
Qed.

(** ** Further properties of the handlers *)

Lemma trim_idempotent (s : jsstring) : trim (trim s) = trim s.
Proof.
  destruct (trim_first s) as [E | [c [r [E W]]]]; [now rewrite E|].
  destruct (trim_last s) as [E' | [r' [c' [E' W']]]]; [congruence|].
  unfold trim at 1. rewrite E. cbn [trimStart]. rewrite W.
  unfold trimEnd. rewrite <- E, E', rev_app_distr. cbn [rev app trimStart].
  rewrite W'. change (c' :: rev r') with (rev [c'] ++ rev r').
  now rewrite <- rev_app_distr, rev_involutive.
Qed.

Lemma digits_head (u : Decimal.uint) (r : jsstring) : digits u <> 45%N :: r.
Proof. destruct u; discriminate. Qed.

Lemma digits_inj (u v : Decimal.uint) : digits u = digits v -> u = v.
Proof.
  revert v. induction u; intros [] H; try discriminate H; try reflexivity;
    injection H as H; f_equal; now apply IHu.
Qed.

(** Distinct integers have distinct decimal strings. *)
Lemma Z_toString_inj (a b : Z) : Z_toString a = Z_toString b -> a = b.
Proof.
  destruct a as [|p|p], b as [|q|q]; simpl; intros H; try reflexivity.
  - apply (digits_inj (Decimal.D0 Decimal.Nil)) in H. symmetry in H.
    now apply DecimalPos.Unsigned.to_uint_nonzero in H.
  - discriminate H.
  - apply (digits_inj _ (Decimal.D0 Decimal.Nil)) in H.
    now apply DecimalPos.Unsigned.to_uint_nonzero in H.
  - apply digits_inj, DecimalPos.Unsigned.to_uint_inj in H. congruence.
  - now apply digits_head in H.
  - discriminate H.
  - symmetry in H. now apply digits_head in H.
  - injection H as H. apply digits_inj, DecimalPos.Unsigned.to_uint_inj in H. congruence.
Qed.

(** With distinct ids, two tasks of the list with the same id are the same
    task. *)
Lemma same_id_same_task (ts : list Todo) (a b : Todo) :
  unique_ids ts -> In a ts -> In b ts -> id a = id b -> a = b.
Proof.
  unfold unique_ids. induction ts as [|t ts IH]; simpl; intros U Ha Hb E; [contradiction|].
  inversion U as [|? ? Hn U']; subst.
  destruct Ha as [<- | Ha], Hb as [<- | Hb]; auto.
  - exfalso. apply Hn. rewrite E. now apply in_map.
  - exfalso. apply Hn. rewrite <- E. now apply in_map.
Qed.

Lemma unique_ids_split (l1 l2 : list Todo) (t x : Todo) :
  unique_ids (l1 ++ t :: l2) -> In x (l1 ++ l2) -> str_eqb (id x) (id t) = false.
Proof.
  intros U Hx. apply str_eqb_neq. intros E.
  assert (x = t).
  { eapply same_id_same_task; [exact U | | | exact E]; apply in_app_iff; simpl; auto.
    apply in_app_iff in Hx. tauto. }
  subst x. unfold unique_ids in U. rewrite map_app in U. simpl in U.
  apply NoDup_remove_2 in U. apply U. rewrite <- map_app. now apply in_map.
Qed.

Lemma filter_count {A : Type} (p : A -> bool) (l : list A) :
  (List.length (List.filter p l) + List.length (List.filter (fun x => negb (p x)) l)
   = List.length l)%nat.
Proof.
  induction l as [|x l IH]; simpl; [reflexivity|].
  destruct (p x); simpl; lia.
Qed.

(** *** [deleteTodo] *)

(** [deleteTodo] leaves exactly the tasks with another id, in their order:
    what is left is a subsequence of the list without the id, and contains
    every such subsequence. *)
Theorem deleteTodo_removes_exactly (id' : jsstring) (s : State) :
  subseq (todos (deleteTodo id' s)) (todos s) /\
  ~ In id' (List.map id (todos (deleteTodo id' s))) /\
  (forall l, subseq l (todos s) -> ~ In id' (List.map id l) ->
             subseq l (todos (deleteTodo id' s))) /\
  newTodo (deleteTodo id' s) = newTodo s /\
  filter (deleteTodo id' s) = filter s /\
  editingId (deleteTodo id' s) = editingId s /\
  editText (deleteTodo id' s) = editText s.
Proof.
  unfold deleteTodo. simpl. repeat split.
  - apply filter_subseq.
  - intros H. apply in_map_iff in H as [t [E H]]. apply filter_In in H as [_ H].
    rewrite E, str_eqb_refl in H. discriminate.
  - intros l Hl Hn. apply subseq_filter_greatest; [assumption|].
    apply Forall_forall. intros t Ht. apply negb_true_iff, str_eqb_neq.
    intros E. apply Hn. rewrite <- E. now apply in_map.
Qed.

(** In a list with distinct ids, [deleteTodo] with the id of a task removes
    that task and no other: the list is one shorter. *)
Theorem deleteTodo_removes_one (s : State) (l1 l2 : list Todo) (t : Todo) :
  unique_ids (todos s) ->
  todos s = l1 ++ t :: l2 ->
  todos (deleteTodo (id t) s) = l1 ++ l2 /\
  S (List.length (todos (deleteTodo (id t) s))) = List.length (todos s).
Proof.
  intros U E. rewrite E in U.
  assert (K : forall l, (forall x, In x l -> In x (l1 ++ l2)) ->
    List.filter (fun todo => negb (str_eqb (id todo) (id t))) l = l).
  { induction l as [|x l IH]; simpl; intros H; [reflexivity|].
    rewrite (@unique_ids_split l1 l2 t x U (H x (or_introl eq_refl))). simpl.
    rewrite IH; auto. }
  assert (D : todos (deleteTodo (id t) s) = l1 ++ l2).
  { unfold deleteTodo. simpl. rewrite E, filter_app. simpl.
    rewrite str_eqb_refl. simpl.
    rewrite !K; auto; intros x Hx; apply in_app_iff; auto. }
  split; [exact D|]. rewrite D, E, !length_app. simpl. lia.
Qed.

Lemma deleteTodo_removes_one_witness :
  let s := setTodos [Examples.task2; Examples.task1] initial in
  todos (deleteTodo (id Examples.task2) s) = [] ++ [Examples.task1] /\
  S (List.length (todos (deleteTodo (id Examples.task2) s))) = List.length (todos s).
Proof.
  apply (@deleteTodo_removes_one _ [] [Examples.task1] Examples.task2).
  - repeat constructor; simpl; intuition discriminate.
  - reflexivity.
Defined.

(** *** [saveEdit], [startEditing] and [cancelEdit] *)

(** With a draft whose trimmed form is not empty, [saveEdit] gives the
    trimmed draft as text to the tasks whose id is the session's, leaves
    every other task and every other field as it is, keeps length and order,
    and closes the session. *)
Theorem saveEdit_commits (s : State) (i : jsstring) :
  editingId s = Some i ->
  trim (editText s) <> [] ->
  (forall n t, nth_error (todos s) n = Some t ->
     nth_error (todos (saveEdit s)) n
     = Some (if str_eqb (id t) i then retexted (trim (editText s)) t else t)) /\
  List.length (todos (saveEdit s)) = List.length (todos s) /\
  editingId (saveEdit s) = None /\
  editText (saveEdit s) = [] /\
  newTodo (saveEdit s) = newTodo s /\
  filter (saveEdit s) = filter s.
Proof.
  intros Hi Ht. unfold saveEdit.
  destruct (str_eqb (trim (editText s)) []) eqn:E.
  - apply str_eqb_eq in E. contradiction.
  - simpl. rewrite Hi. repeat split.
    + intros n t Hn. rewrite nth_error_map, Hn. reflexivity.
    + apply length_map.
Qed.

Lemma saveEdit_commits_witness :
  let s := updateDraft (js " Buy oat milk ")
             (startEditing Examples.task1
                (setTodos [Examples.task2; Examples.task1] initial)) in
  (forall n t, nth_error (todos s) n = Some t ->
     nth_error (todos (saveEdit s)) n
     = Some (if str_eqb (id t) (id Examples.task1)
             then retexted (trim (editText s)) t else t)) /\
  List.length (todos (saveEdit s)) = List.length (todos s) /\
  editingId (saveEdit s) = None /\
  editText (saveEdit s) = [] /\
  newTodo (saveEdit s) = newTodo s /\
  filter (saveEdit s) = filter s.
Proof.
  apply saveEdit_commits; [reflexivity | vm_compute; discriminate].
Defined.

(** When no task carries the id of the session (no session is open, or the
    task being edited was deleted), [saveEdit] changes no task, whatever the
    draft is. *)
Theorem saveEdit_without_target (s : State) :
  (forall t, In t (todos s) -> is_editing (editingId s) t = false) ->
  todos (saveEdit s) = todos s.
Proof.
  intros H. unfold saveEdit.
  destruct (str_eqb (trim (editText s)) []); [reflexivity|]. simpl.
  rewrite <- (map_id (todos s)) at 2. apply map_ext_in.
  intros t Ht. now rewrite (H t Ht).
Qed.

Lemma saveEdit_without_target_witness :
  let s := updateDraft (js "new text")
             (deleteTodo (id Examples.task1)
                (startEditing Examples.task1
                   (setTodos [Examples.task2; Examples.task1] initial))) in
  todos (saveEdit s) = todos s.
Proof.
  apply saveEdit_without_target.
  intros t [<- | []]. reflexivity.
Defined.

(** Opening a session on a task of a list with distinct ids and saving the
    draft as it is leaves the list unchanged, provided the text of the task
    is a trimmed text. *)
Theorem edit_without_change (s : State) (todo : Todo) :
  unique_ids (todos s) ->
  In todo (todos s) ->
  trim (text todo) = text todo ->
  todos (saveEdit (startEditing todo s)) = todos s.
Proof.
  intros U Hin Ht. unfold saveEdit, startEditing. simpl.
  destruct (str_eqb (trim (text todo)) []); [reflexivity|]. simpl.
  rewrite <- (map_id (todos s)) at 2. apply map_ext_in.
  intros t Hi. destruct (str_eqb (id t) (id todo)) eqn:E; [|reflexivity].
  apply str_eqb_eq in E.
  assert (t = todo) by (eapply same_id_same_task; eauto).
  subst t. rewrite Ht. now destruct todo.
Qed.

Lemma edit_without_change_witness :
  let s := setTodos [Examples.task2; Examples.task1] initial in
  todos (saveEdit (startEditing Examples.task1 s)) = todos s.
Proof.
  apply edit_without_change.
  - repeat constructor; simpl; intuition discriminate.
  - simpl. auto.
  - reflexivity.
Defined.

(** *** The counts *)

(** The two counts split the list: [completedCount] is the number of
    completed tasks, the counts add up to the length, and each is the length
    of the view under the filter of its name, whatever the current filter
    is. *)
Theorem counts_partition (s : State) :
  completedCount s = List.length (List.filter completed (todos s)) /\
  (activeCount s + completedCount s = List.length (todos s))%nat /\
  List.length (filteredTodos (setFilter active s)) = activeCount s /\
  List.length (filteredTodos (setFilter completed_ s)) = completedCount s /\
  List.length (filteredTodos (setFilter all s)) = List.length (todos s).
Proof.
  unfold completedCount, activeCount, filteredTodos. simpl.
  pose proof (filter_count completed (todos s)) as H.
  rewrite filter_true.
  change (List.filter (fun todo : Todo => completed todo) (todos s))
    with (List.filter completed (todos s)).
  repeat split; lia.
Qed.

(** A successful [add] raises the active count by one and leaves the
    completed count as it is. *)
Theorem add_counts (t : jsstring) (now created : Z) (s : State) :
  trim t <> [] ->
  activeCount (add t now created s) = S (activeCount s) /\
  completedCount (add t now created s) = completedCount s.
Proof.
  intros H. unfold add, addTodo. simpl.
  destruct (str_eqb (trim t) []) eqn:E; [apply str_eqb_eq in E; contradiction|].
  unfold completedCount, activeCount. simpl.
  pose proof (filter_count completed (todos s)). split; lia.
Qed.

Lemma add_counts_witness :
  let s := setTodos [Examples.task2; Examples.task1] initial in
  activeCount (add (js "Walk") 1700000090000 1700000090000 s) = S (activeCount s) /\
  completedCount (add (js "Walk") 1700000090000 1700000090000 s) = completedCount s.
Proof. apply add_counts. vm_compute. discriminate. Defined.

(** *** [toggleTodo] *)

Lemma map_unchanged {A : Type} (f : A -> A) (l : list A) :
  (forall x, In x l -> f x = x) -> List.map f l = l.
Proof.
  intros H. rewrite <- (map_id l) at 2. now apply map_ext_in.
Qed.

(** [toggleTodo] changes completion marks only: ids, texts and creation
    times are as before, in the same order, and a task with another id is
    left as it is. *)
Theorem toggleTodo_changes_only_completed (id' : jsstring) (s : State) :
  List.map id (todos (toggleTodo id' s)) = List.map id (todos s) /\
  List.map text (todos (toggleTodo id' s)) = List.map text (todos s) /\
  List.map createdAt (todos (toggleTodo id' s)) = List.map createdAt (todos s) /\
  (forall n t, nth_error (todos s) n = Some t -> id t <> id' ->
               nth_error (todos (toggleTodo id' s)) n = Some t).
Proof.
  unfold toggleTodo. simpl. rewrite !map_map. repeat split.
  - apply map_ext. intros t. now destruct (str_eqb (id t) id').
  - apply map_ext. intros t. now destruct (str_eqb (id t) id').
  - apply map_ext. intros t. now destruct (str_eqb (id t) id').
  - intros n t Hn Hd. rewrite nth_error_map, Hn. simpl.
    apply str_eqb_neq in Hd. now rewrite Hd.
Qed.

Lemma toggleTodo_split (s : State) (l1 l2 : list Todo) (t : Todo) :
  unique_ids (todos s) ->
  todos s = l1 ++ t :: l2 ->
  todos (toggleTodo (id t) s) = l1 ++ toggled t :: l2.
Proof.
  intros U E. rewrite E in U.
  unfold toggleTodo. simpl. rewrite E, map_app. simpl. rewrite str_eqb_refl.
  rewrite !map_unchanged; [reflexivity | |]; intros x Hx;
    rewrite (@unique_ids_split l1 l2 t x U); auto; apply in_app_iff; auto.
Qed.

(** In a list with distinct ids, [toggleTodo] with the id of a task negates
    the mark of that task and of no other, and moves one unit between the
    two counts. *)
Theorem toggleTodo_toggles_one (s : State) (l1 l2 : list Todo) (t : Todo) :
  unique_ids (todos s) ->
  todos s = l1 ++ t :: l2 ->
  todos (toggleTodo (id t) s) = l1 ++ toggled t :: l2 /\
  (if completed t
   then activeCount (toggleTodo (id t) s) = S (activeCount s) /\
        S (completedCount (toggleTodo (id t) s)) = completedCount s
   else S (activeCount (toggleTodo (id t) s)) = activeCount s /\
        completedCount (toggleTodo (id t) s) = S (completedCount s)).
Proof.
  intros U E.
  pose proof (toggleTodo_split s l1 l2 t U E) as D.
  split; [exact D|].
  unfold completedCount, activeCount. rewrite D, E.
  rewrite !filter_app, !length_app. simpl.
  pose proof (filter_count completed l1). pose proof (filter_count completed l2).
  destruct (completed t); simpl; rewrite ?length_app; simpl; split; lia.
Qed.

Lemma toggleTodo_toggles_one_witness :
  let s := setTodos [Examples.task2; Examples.task1] initial in
  todos (toggleTodo (id Examples.task1) s)
    = [Examples.task2] ++ toggled Examples.task1 :: [] /\
  (if completed Examples.task1
   then activeCount (toggleTodo (id Examples.task1) s) = S (activeCount s) /\
        S (completedCount (toggleTodo (id Examples.task1) s)) = completedCount s
   else S (activeCount (toggleTodo (id Examples.task1) s)) = activeCount s /\
        completedCount (toggleTodo (id Examples.task1) s) = S (completedCount s)).
Proof.
  apply (@toggleTodo_toggles_one _ [Examples.task2] [] Examples.task1).
  - repeat constructor; simpl; intuition discriminate.
  - reflexivity.
Defined.

(** *** Operations one after the other *)

(** In a list with distinct ids, toggling an active task takes it out of the
    view of the active tasks and puts it, completed, into the view of the
    completed ones. *)
Theorem toggled_task_changes_view (s : State) (l1 l2 : list Todo) (t : Todo) :
  unique_ids (todos s) ->
  todos s = l1 ++ t :: l2 ->
  completed t = false ->
  In t (filteredTodos (setFilter active s)) /\
  ~ In (id t) (List.map id (filteredTodos (setFilter active (toggleTodo (id t) s)))) /\
  In (toggled t) (filteredTodos (setFilter completed_ (toggleTodo (id t) s))).
Proof.
  intros U E C.
  pose proof (toggleTodo_split s l1 l2 t U E) as D.
  unfold filteredTodos. simpl filter. cbv iota.
  change (todos (setFilter active s)) with (todos s).
  change (todos (setFilter active (toggleTodo (id t) s)))
    with (todos (toggleTodo (id t) s)).
  change (todos (setFilter completed_ (toggleTodo (id t) s)))
    with (todos (toggleTodo (id t) s)).
  rewrite D, E. repeat split.
  - apply filter_In. split; [apply in_app_iff; simpl; auto | now rewrite C].
  - intros H. apply in_map_iff in H as [x [Ex H]].
    apply filter_In in H as [H Hc]. apply in_app_iff in H as [H | [<- | H]].
    + rewrite E in U. apply str_eqb_eq in Ex.
      rewrite (@unique_ids_split l1 l2 t x U) in Ex; [discriminate|].
      apply in_app_iff; auto.
    + simpl in Hc. now rewrite C in Hc.
    + rewrite E in U. apply str_eqb_eq in Ex.
      rewrite (@unique_ids_split l1 l2 t x U) in Ex; [discriminate|].
      apply in_app_iff; auto.
  - apply filter_In. split; [apply in_app_iff; simpl; auto | simpl; now rewrite C].
Qed.

Lemma toggled_task_changes_view_witness :
  let s := setTodos [Examples.task2; Examples.task1] initial in
  In Examples.task1 (filteredTodos (setFilter active s)) /\
  ~ In (id Examples.task1)
       (List.map id (filteredTodos (setFilter active (toggleTodo (id Examples.task1) s)))) /\
  In (toggled Examples.task1)
     (filteredTodos (setFilter completed_ (toggleTodo (id Examples.task1) s))).
Proof.
  apply (@toggled_task_changes_view _ [Examples.task2] [] Examples.task1).
  - repeat constructor; simpl; intuition discriminate.
  - reflexivity.
  - reflexivity.
Defined.

(** Adding a task at a clock reading whose string no task carries and
    deleting the new id gives the list back. *)
Theorem add_then_delete (t : jsstring) (now created : Z) (s : State) :
  trim t <> [] ->
  ~ In (Z_toString now) (List.map id (todos s)) ->
  todos (deleteTodo (Z_toString now) (add t now created s)) = todos s.
Proof.
  intros Ht Hf. unfold add, addTodo. simpl.
  destruct (str_eqb (trim t) []) eqn:E; [apply str_eqb_eq in E; contradiction|].
  simpl. rewrite str_eqb_refl. simpl. now apply filter_id_absent.
Qed.

Lemma add_then_delete_witness :
  let s := setTodos [Examples.task2; Examples.task1] initial in
  todos (deleteTodo (Z_toString 1700000090000)
           (add (js "Walk") 1700000090000 1700000090001 s)) = todos s.
Proof.
  apply add_then_delete.
  - vm_compute. discriminate.
  - vm_compute. intuition discriminate.
Defined.

(** *** The keyboard *)

Lemma saveEdit_keeps (s : State) :
  List.length (todos (saveEdit s)) = List.length (todos s) /\
  newTodo (saveEdit s) = newTodo s /\ filter (saveEdit s) = filter s.
Proof.
  unfold saveEdit. destruct (str_eqb (trim (editText s)) []); simpl; auto.
  now rewrite length_map.
Qed.

(** While a session is open on a task whose id is not the empty string,
    Enter in the add box is [saveEdit]: no task is added and the add box
    keeps its text, whatever it holds. *)
Theorem handleKeyDown_while_editing (now created : Z) (s : State) (i : jsstring) :
  editingId s = Some i ->
  i <> [] ->
  handleKeyDown (js "Enter") now created s = saveEdit s /\
  List.length (todos (handleKeyDown (js "Enter") now created s))
    = List.length (todos s) /\
  newTodo (handleKeyDown (js "Enter") now created s) = newTodo s.
Proof.
  intros Hi Hn.
  assert (E : handleKeyDown (js "Enter") now created s = saveEdit s).
  { unfold handleKeyDown. rewrite str_eqb_refl, Hi. now destruct i. }
  rewrite E. split; [reflexivity|]. pose proof (saveEdit_keeps s). tauto.
Qed.

Lemma handleKeyDown_while_editing_witness :
  let s := setNewTodo (js "Walk")
             (updateDraft (js "Buy oat milk")
                (startEditing Examples.task1
                   (setTodos [Examples.task2; Examples.task1] initial))) in
  handleKeyDown (js "Enter") 1700000090000 1700000090000 s = saveEdit s /\
  List.length (todos (handleKeyDown (js "Enter") 1700000090000 1700000090000 s))
    = List.length (todos s) /\
  newTodo (handleKeyDown (js "Enter") 1700000090000 1700000090000 s) = newTodo s.
Proof.
  apply (@handleKeyDown_while_editing _ _ _ (id Examples.task1));
    [reflexivity | discriminate].
Defined.

(** A session on a task whose id is the empty string does not count as a
    session for the add box: Enter there adds the task typed in the box, and
    the session and its draft stay as they are. *)
Theorem handleKeyDown_empty_id (now created : Z) (s : State) :
  editingId s = Some [] ->
  trim (newTodo s) <> [] ->
  handleKeyDown (js "Enter") now created s = addTodo now created s /\
  List.length (todos (handleKeyDown (js "Enter") now created s))
    = S (List.length (todos s)) /\
  editingId (handleKeyDown (js "Enter") now created s) = Some [] /\
  editText (handleKeyDown (js "Enter") now created s) = editText s.
Proof.
  intros Hi Hn. unfold handleKeyDown. rewrite str_eqb_refl, Hi. simpl.
  unfold addTodo. destruct (str_eqb (trim (newTodo s)) []) eqn:E.
  - apply str_eqb_eq in E. contradiction.
  - simpl. auto.
Qed.

Lemma handleKeyDown_empty_id_witness :
  let nameless := {| id := []; text := js "a"; completed := false;
                     createdAt := DateOf 5 |} in
  let s := setNewTodo (js "Walk")
             (updateDraft (js "b") (startEditing nameless (setTodos [nameless] initial))) in
  handleKeyDown (js "Enter") 1700000090000 1700000090000 s
    = addTodo 1700000090000 1700000090000 s /\
  List.length (todos (handleKeyDown (js "Enter") 1700000090000 1700000090000 s))
    = S (List.length (todos s)) /\
  editingId (handleKeyDown (js "Enter") 1700000090000 1700000090000 s) = Some [] /\
  editText (handleKeyDown (js "Enter") 1700000090000 1700000090000 s) = editText s.
Proof.
  apply handleKeyDown_empty_id; [reflexivity | vm_compute; discriminate].
Defined.

(** From a state without a session, opening a session on any task, typing
    any draft and pressing Escape in the edit box gives the state back. *)
Theorem escape_discards_draft (s : State) (todo : Todo) (t : jsstring) :
  editingId s = None ->
  editText s = [] ->
  editKeyDown (js "Escape") (updateDraft t (startEditing todo s)) = s.
Proof.
  intros Hi Ht. destruct s as [ts n f e et]. simpl in *. subst. reflexivity.
Qed.

Lemma escape_discards_draft_witness :
  let s := setTodos [Examples.task2; Examples.task1] initial in
  editKeyDown (js "Escape") (updateDraft (js "x") (startEditing Examples.task1 s)) = s.
Proof. apply escape_discards_draft; reflexivity. Defined.

(** *** Runs of the user interface *)

Lemma run_state_invariant (Inv : State -> Prop) (G : State -> Action -> Prop)
  (P : Platform) :
  (forall a s s', G s a -> Inv s -> perform P a s = Some s' -> Inv s') ->
  forall l s s', admissible G P l s -> Inv s -> run P l s = Some s' -> Inv s'.
Proof.
  intros Step. induction l as [|a l IH]; simpl; intros s s' Ha Hi Hr.
  - now injection Hr as <-.
  - destruct Ha as [Hg Ha]. destruct (perform P a s) as [s1|] eqn:E; [|discriminate].
    eapply IH; eauto.
Qed.

Lemma perform_session (P : Platform) (a : Action) (s s' : State) :
  draft_in_session s a ->
  (editingId s = None -> editText s = []) ->
  perform P a s = Some s' ->
  editingId s' = None -> editText s' = [].
Proof.
  destruct a as [saved|t|now created|id'|id'|todo|t| | |f]; intros G I H;
    try (performed H; simpl; assumption).
  - apply perform_load in H as [-> | [ts [L ->]]]; assumption.
  - performed H. unfold addTodo.
    destruct (str_eqb (trim (newTodo s)) []); simpl; assumption.
  - performed H. simpl. discriminate.
  - performed H. simpl in *. intros E. contradiction.
  - performed H. unfold saveEdit.
    destruct (str_eqb (trim (editText s)) []); simpl; auto.
  - performed H. reflexivity.
Qed.

(** Along a run of the user interface, where the draft changes only while a
    session is open, the draft is empty whenever no session is open; in such
    a state [saveEdit] and [cancelEdit] change nothing. *)
Theorem closed_session_empty_draft (P : Platform) (l : list Action) (s : State) :
  admissible draft_in_session P l initial ->
  run P l initial = Some s ->
  editingId s = None ->
  editText s = [] /\ saveEdit s = s /\ cancelEdit s = s.
Proof.
  intros Ha Hr Hn.
  assert (E : editText s = []).
  { revert Hn.
    apply (@run_state_invariant (fun s => editingId s = None -> editText s = [])
             draft_in_session P (@perform_session P) l initial s Ha); auto. }
  split; [exact E|]. unfold saveEdit, cancelEdit. rewrite E. simpl.
  split; [reflexivity|]. destruct s. simpl in *. now subst.
Qed.

Lemma closed_session_empty_draft_witness :
  exists s, run Ref.platform Examples.session initial = Some s /\
            editText s = [] /\ saveEdit s = s /\ cancelEdit s = s.
Proof.
  eexists. split; [vm_compute; reflexivity|].
  apply (@closed_session_empty_draft Ref.platform Examples.session).
  - simpl. repeat split; discriminate.
  - vm_compute. reflexivity.
  - reflexivity.
Defined.

(** *** First sessions: nothing saved to load *)

Lemma perform_nothing_saved (P : Platform) (saved : option jsstring) (s s' : State) :
  nothing_saved (Load saved) -> perform P (Load saved) s = Some s' -> s' = s.
Proof.
  destruct saved as [[|c r]|]; simpl; intros G H; try contradiction;
    now injection H as <-.
Qed.

(** Where the tasks of the next state come from: each has the id and the
    creation time of a task of the state before, or is the task [addTodo]
    made from its two clock readings. *)
Lemma perform_provenance (P : Platform) (a : Action) (s s' : State) (t' : Todo) :
  nothing_saved a ->
  perform P a s = Some s' ->
  In t' (todos s') ->
  (exists t, In t (todos s) /\ id t = id t' /\ createdAt t = createdAt t') \/
  (exists now created, a = AddTodo now created /\
     id t' = Z_toString now /\ createdAt t' = DateOf created).
Proof.
  assert (Same : In t' (todos s) ->
    (exists t, In t (todos s) /\ id t = id t' /\ createdAt t = createdAt t') \/
    (exists now created, a = AddTodo now created /\
       id t' = Z_toString now /\ createdAt t' = DateOf created)).
  { intros H. left. now exists t'. }
  destruct a as [saved|t|now created|id'|id'|todo|t| | |f]; intros G H Hin;
    try (performed H; simpl in Hin; now apply Same).
  - apply perform_nothing_saved in H; [subst; now apply Same | assumption].
  - performed H. unfold addTodo in Hin.
    destruct (str_eqb (trim (newTodo s)) []); [now apply Same|].
    simpl in Hin. destruct Hin as [<- | Hin]; [|now apply Same].
    right. now exists now, created.
  - performed H. simpl in Hin. apply filter_In in Hin as [Hin _]. now apply Same.
  - performed H. simpl in Hin. apply in_map_iff in Hin as [t0 [<- Hin]].
    left. exists t0. now destruct (str_eqb (id t0) id').
  - performed H. unfold saveEdit in Hin.
    destruct (str_eqb (trim (editText s)) []); [now apply Same|].
    simpl in Hin. apply in_map_iff in Hin as [t0 [<- Hin]].
    left. exists t0. now destruct (is_editing (editingId s) t0).
Qed.

Lemma run_provenance (P : Platform) (l : list Action) :
  forall s0 s t,
    Forall nothing_saved l ->
    run P l s0 = Some s ->
    In t (todos s) ->
    (exists t0, In t0 (todos s0) /\ id t0 = id t /\ createdAt t0 = createdAt t) \/
    (exists now created, In (AddTodo now created) l /\
       id t = Z_toString now /\ createdAt t = DateOf created).
Proof.
  induction l as [|a l IH]; simpl; intros s0 s t F Hr Hin.
  - injection Hr as <-. left. now exists t.
  - inversion F as [|? ? Ha F']; subst.
    destruct (perform P a s0) as [s1|] eqn:E; [|discriminate].
    destruct (IH s1 s t F' Hr Hin) as [[t1 [H1 [Ei Ec]]] | [now [created [Hl H]]]].
    + destruct (@perform_provenance P a s0 s1 t1 Ha E H1)
        as [[t0 [H0 [Ei0 Ec0]]] | [now [created [-> [Hi Hc]]]]].
      * left. exists t0. repeat split; congruence.
      * right. exists now, created. repeat split; [now left | congruence | congruence].
    + right. exists now, created. split; [now right | assumption].
Qed.

(** In a first session (nothing saved to load), every task of every state
    was made by an [addTodo] of the run: its id is the decimal string of the
    reading of [Date.now()] and its creation time the valid date of
    [new Date()] of that call.  No handler changes an id or a creation
    time. *)
Theorem tasks_come_from_adds (P : Platform) (l : list Action) (s : State) (t : Todo) :
  Forall nothing_saved l ->
  run P l initial = Some s ->
  In t (todos s) ->
  exists now created, In (AddTodo now created) l /\
    id t = Z_toString now /\ createdAt t = DateOf created.
Proof.
  intros F Hr Hin.
  destruct (@run_provenance P l initial s t F Hr Hin) as [[t0 [[] _]] | H]; exact H.
Qed.

Lemma tasks_come_from_adds_witness :
  exists now created, In (AddTodo now created) Examples.session /\
    id (retexted (js "Buy oat milk") (toggled
          {| id := js "1700000000000"; text := js "Buy milk"; completed := false;
             createdAt := DateOf 1700000000000 |})) = Z_toString now /\
    createdAt (retexted (js "Buy oat milk") (toggled
          {| id := js "1700000000000"; text := js "Buy milk"; completed := false;
             createdAt := DateOf 1700000000000 |})) = DateOf created.
Proof.
  eapply (@tasks_come_from_adds Ref.platform Examples.session).
  - repeat constructor.
  - vm_compute. reflexivity.
  - vm_compute. left. reflexivity.
Defined.

Lemma run_ids_bounded (P : Platform) (l : list Action) :
  forall s0 s i,
    Forall nothing_saved l ->
    run P l s0 = Some s ->
    In i (List.map id (todos s)) ->
    In i (List.map id (todos s0)) \/ In i (List.map Z_toString (add_times l)).
Proof.
  induction l as [|a l IH]; simpl; intros s0 s i F Hr Hin.
  - injection Hr as <-. now left.
  - inversion F as [|? ? Ha F']; subst.
    destruct (perform P a s0) as [s1|] eqn:E; [|discriminate].
    destruct (IH s1 s i F' Hr Hin) as [H | H].
    + apply in_map_iff in H as [t1 [<- H1]].
      destruct (@perform_provenance P a s0 s1 t1 Ha E H1)
        as [[t0 [H0 [Ei0 _]]] | [now [created [-> [Hi _]]]]].
      * left. rewrite <- Ei0. now apply in_map.
      * right. simpl. left. congruence.
    + right. destruct a; simpl; auto.
Qed.

(** In a first session whose [addTodo] calls read pairwise distinct values
    from [Date.now()], the ids of the tasks are pairwise distinct in every
    state. *)
Theorem distinct_clock_unique_ids (P : Platform) (l : list Action) (s : State) :
  Forall nothing_saved l ->
  NoDup (add_times l) ->
  run P l initial = Some s ->
  unique_ids (todos s).
Proof.
  intros F N Hr.
  assert (G : forall l s0 s,
    Forall nothing_saved l -> NoDup (add_times l) ->
    unique_ids (todos s0) ->
    (forall i, In i (List.map id (todos s0)) ->
               ~ In i (List.map Z_toString (add_times l))) ->
    run P l s0 = Some s -> unique_ids (todos s)).
  { clear. induction l as [|a l IH]; simpl; intros s0 s F N U D Hr.
    - now injection Hr as <-.
    - inversion F as [|? ? Ha F']; subst.
      destruct (perform P a s0) as [s1|] eqn:E; [|discriminate].
      assert (N' : NoDup (add_times l)).
      { destruct a; simpl in N; try assumption. now inversion N. }
      apply (IH s1 s F' N'); [| |exact Hr].
      + apply (@perform_unique_ids P a s0 s1); [|assumption|assumption].
        destruct a as [saved| |now created| | | | | | |]; simpl; auto.
        * destruct saved as [[|c r]|]; simpl in Ha; try contradiction;
            intros ts H; discriminate H.
        * right. intros H. apply (D _ H). simpl. now left.
      + intros i Hi Hl. apply in_map_iff in Hi as [t1 [<- H1]].
        destruct (@perform_provenance P a s0 s1 t1 Ha E H1)
          as [[t0 [H0 [Ei0 _]]] | [now [created [-> [Hi _]]]]].
        * apply (D (id t0)); [now apply in_map|].
          rewrite Ei0. destruct a; simpl; auto.
        * simpl in N. inversion N as [|? ? Hn _]; subst. apply Hn.
          rewrite Hi in Hl. apply in_map_iff in Hl as [n [En Hl]].
          apply Z_toString_inj in En. now subst. }
  apply (G l initial s F N); [constructor | intros i [] | exact Hr].
Qed.

Lemma distinct_clock_unique_ids_witness :
  exists s, run Ref.platform Examples.session initial = Some s /\
            unique_ids (todos s).
Proof.
  eexists. split; [vm_compute; reflexivity|].
  apply (@distinct_clock_unique_ids Ref.platform Examples.session).
  - repeat constructor.
  - simpl. repeat constructor; simpl; intuition discriminate.
  - vm_compute. reflexivity.
Defined.

Lemma perform_trimmed (P : Platform) (a : Action) (s s' : State) :
  nothing_saved a ->
  Forall (fun t => trim (text t) = text t /\ text t <> []) (todos s) ->
  perform P a s = Some s' ->
  Forall (fun t => trim (text t) = text t /\ text t <> []) (todos s').
Proof.
  destruct a as [saved|t|now created|id'|id'|todo|t| | |f]; intros G U H;
    try (performed H; simpl; assumption).
  - apply perform_nothing_saved in H; [now subst | assumption].
  - performed H. unfold addTodo.
    destruct (str_eqb (trim (newTodo s)) []) eqn:E; [assumption|].
    simpl. constructor; [|assumption]. simpl.
    split; [apply trim_idempotent | now apply str_eqb_neq].
  - performed H. simpl.
    apply Forall_forall. intros t Ht. apply filter_In in Ht as [Ht _].
    revert t Ht. now apply Forall_forall.
  - performed H. simpl.
    apply Forall_forall. intros t Ht. apply in_map_iff in Ht as [t0 [<- Ht]].
    assert (B : trim (text t0) = text t0 /\ text t0 <> [])
      by (revert t0 Ht; now apply Forall_forall).
    now destruct (str_eqb (id t0) id').
  - performed H. unfold saveEdit.
    destruct (str_eqb (trim (editText s)) []) eqn:E; [assumption|].
    simpl. apply Forall_forall. intros t Ht. apply in_map_iff in Ht as [t0 [<- Ht]].
    assert (B : trim (text t0) = text t0 /\ text t0 <> [])
      by (revert t0 Ht; now apply Forall_forall).
    destruct (is_editing (editingId s) t0); [simpl|assumption].
    split; [apply trim_idempotent | now apply str_eqb_neq].
Qed.

(** In a first session every text in the list is a trimmed text: it is not
    empty and has no white space at either end. *)
Theorem texts_trimmed_along_runs (P : Platform) (l : list Action) (s : State) :
  Forall nothing_saved l ->
  run P l initial = Some s ->
  Forall (fun t => trim (text t) = text t /\ text t <> []) (todos s).
Proof.
  intros F Hr.
  assert (G : forall l s0 s, Forall nothing_saved l ->
    Forall (fun t => trim (text t) = text t /\ text t <> []) (todos s0) ->
    run P l s0 = Some s ->
    Forall (fun t => trim (text t) = text t /\ text t <> []) (todos s)).
  { clear. induction l as [|a l IH]; simpl; intros s0 s F U Hr.
    - now injection Hr as <-.
    - inversion F as [|? ? Ha F']; subst.
      destruct (perform P a s0) as [s1|] eqn:E; [|discriminate].
      apply (IH s1 s F'); [|exact Hr]. now apply (@perform_trimmed P a s0 s1). }
  apply (G l initial s F); [constructor | exact Hr].
Qed.

Lemma texts_trimmed_along_runs_witness :
  exists s, run Ref.platform Examples.session initial = Some s /\
            Forall (fun t => trim (text t) = text t /\ text t <> []) (todos s).
Proof.
  eexists. split; [vm_compute; reflexivity|].
  apply (@texts_trimmed_along_runs Ref.platform Examples.session).
  - repeat constructor.
  - vm_compute. reflexivity.
Defined.

(** *** How deleting and toggling compose *)

Lemma filter_filter_comm {A : Type} (p q : A -> bool) (l : list A) :
  List.filter p (List.filter q l) = List.filter q (List.filter p l).
Proof.
  induction l as [|x l IH]; simpl; [reflexivity|].
  destruct (p x) eqn:Ep, (q x) eqn:Eq; simpl; rewrite ?Ep, ?Eq, IH; reflexivity.
Qed.

Lemma filter_idem {A : Type} (p : A -> bool) (l : list A) :
  List.filter p (List.filter p l) = List.filter p l.
Proof.
  induction l as [|x l IH]; simpl; [reflexivity|].
  destruct (p x) eqn:Ep; simpl; rewrite ?Ep, IH; reflexivity.
Qed.

Lemma filter_map_comm {A : Type} (p : A -> bool) (f : A -> A) (l : list A) :
  (forall x, p (f x) = p x) ->
  List.filter p (List.map f l) = List.map f (List.filter p l).
Proof.
  intros H. induction l as [|x l IH]; simpl; [reflexivity|].
  rewrite H. destruct (p x); simpl; now rewrite IH.
Qed.

(** Deleting twice is deleting once; two deletions, a deletion and a toggle,
    and two toggles give the same state in either order. *)
Theorem delete_toggle_compose (a b : jsstring) (s : State) :
  deleteTodo a (deleteTodo a s) = deleteTodo a s /\
  deleteTodo a (deleteTodo b s) = deleteTodo b (deleteTodo a s) /\
  toggleTodo a (deleteTodo b s) = deleteTodo b (toggleTodo a s) /\
  toggleTodo a (toggleTodo b s) = toggleTodo b (toggleTodo a s).
Proof.
  unfold deleteTodo, toggleTodo, setTodos. simpl. repeat split; f_equal.
  - apply filter_idem.
  - apply filter_filter_comm.
  - symmetry. apply filter_map_comm. intros t. now destruct (str_eqb (id t) a).
  - rewrite !map_map. apply map_ext. intros t.
    destruct (str_eqb (id t) a) eqn:Ea, (str_eqb (id t) b) eqn:Eb; simpl;
      rewrite ?Ea, ?Eb; reflexivity.
Qed.

(** The view after a deletion is the view before it without the tasks of
    that id, under every filter. *)
Theorem filteredTodos_after_delete (id' : jsstring) (s : State) :
  filteredTodos (deleteTodo id' s)
  = List.filter (fun todo => negb (str_eqb (id todo) id')) (filteredTodos s).
Proof. unfold filteredTodos, deleteTodo. simpl. apply filter_filter_comm. Qed.

(** *** What the load effect keeps of a record *)

Lemma get_set_same {V : Type} (k : jsstring) (v : V) (o : list (jsstring * V)) :
  get_prop k (set_prop k v o) = Some v.
Proof.
  induction o as [|[k' v'] o IH]; simpl.
  - now rewrite str_eqb_refl.
  - destruct (str_eqb k' k) eqn:E; simpl.
    + now rewrite str_eqb_refl.
    + now rewrite E.
Qed.

Lemma get_set_other {V : Type} (k k' : jsstring) (v : V) (o : list (jsstring * V)) :
  k' <> k -> get_prop k' (set_prop k v o) = get_prop k' o.
Proof.
  intros H. induction o as [|[k0 v0] o IH]; simpl.
  - apply not_eq_sym, str_eqb_neq in H. now rewrite H.
  - destruct (str_eqb k0 k) eqn:E; simpl.
    + apply str_eqb_eq in E. subst k0.
      apply not_eq_sym, str_eqb_neq in H. now rewrite H.
    + destruct (str_eqb k0 k'); [reflexivity | exact IH].
Qed.

Lemma get_spread (k : jsstring) (props : list (jsstring * json)) :
  get_prop k (spread (JObj props)) = option_map VJson (get_prop k props).
Proof.
  induction props as [|[k' v'] props IH]; simpl; [reflexivity|].
  destruct (str_eqb k' k); [reflexivity | exact IH].
Qed.

(** When the callback of [map] returns on a record, the object it returns
    has every property of the record other than [createdAt] with the value
    parsed, and as [createdAt] the [Date] made from the record's
    [createdAt]. *)
Theorem revive_keeps_properties (P : Platform) (props : list (jsstring * json))
  (o : object) :
  revive P (JObj props) = Normal o ->
  (exists d, new_Date P (get_prop (js "createdAt") props) = Normal d /\
             get_prop (js "createdAt") o = Some (VDate d)) /\
  (forall k, k <> js "createdAt" ->
             get_prop k o = option_map VJson (get_prop k props)).
Proof.
  unfold revive. simpl read_createdAt. cbv iota.
  destruct (new_Date P (get_prop (js "createdAt") props)) as [d|e]; [|discriminate].
  intros H. injection H as <-. split.
  - exists d. split; [reflexivity | apply get_set_same].
  - intros k Hk. rewrite get_set_other by assumption. apply get_spread.
Qed.

Lemma revive_keeps_properties_witness :
  let props := [ (js "id", JStr (js "1")); (js "note", JStr (js "x"));
                 (js "createdAt", JStr (js "2023-11-14T22:13:20.123Z")) ] in
  let o := [ (js "id", VJson (JStr (js "1"))); (js "note", VJson (JStr (js "x")));
             (js "createdAt", VDate (DateOf 1700000000123)) ] in
  (exists d, new_Date Ref.platform (get_prop (js "createdAt") props) = Normal d /\
             get_prop (js "createdAt") o = Some (VDate d)) /\
  (forall k, k <> js "createdAt" ->
             get_prop k o = option_map VJson (get_prop k props)).
Proof.
  apply (@revive_keeps_properties Ref.platform). vm_compute. reflexivity.
Defined.

Lemma map_throwing_length {A B : Type} (f : A -> completion B) (l : list A)
  (r : list B) :
  map_throwing f l = Normal r -> List.length r = List.length l.
Proof.
  revert r. induction l as [|x l IH]; simpl; intros r H.
  - now injection H as <-.
  - destruct (f x); [|discriminate].
    destruct (map_throwing f l); [|discriminate].
    injection H as <-. simpl. f_equal. now apply IH.
Qed.

Lemma revives_quietly_normal (P : Platform) (todo : json) :
  revives_quietly todo = true -> exists o, revive P todo = Normal o.
Proof.
  destruct todo as [| b | m e | str | its | props]; simpl; try discriminate;
    try (intros _; eexists; reflexivity).
  intros H. destruct (@revive_object P props) as [d Hd]; [|eauto].
  destruct (get_prop (js "createdAt") props) as [[| | | | |]|];
    try discriminate; exact I.
Qed.

(** The load effect checks no shape: when the snapshot parses to an array
    none of whose elements is [null] or a record with a number, an array or
    an object as [createdAt], one record per element is installed and
    nothing is logged, whatever else the elements are. *)
Theorem load_checks_no_shape (P : Platform) (saved : jsstring) (items : list json) :
  saved <> [] ->
  JSON_parse P saved = Normal (JArr items) ->
  forallb revives_quietly items = true ->
  exists todosWithDates,
    load P (Some saved) = Loaded todosWithDates /\
    List.length todosWithDates = List.length items.
Proof.
  intros Hne Hp Hq. rewrite load_some by assumption.
  unfold deserialize. rewrite Hp.
  destruct (map_throwing (revive P) items) as [r|e] eqn:M.
  - exists r. split; [reflexivity|]. now apply map_throwing_length in M.
  - exfalso. apply map_throwing_throw in M as [before [x [after [E [_ Hx]]]]].
    rewrite forallb_forall in Hq.
    destruct (@revives_quietly_normal P x) as [o Ho]; [|congruence].
    apply Hq. subst items. apply in_app_iff. simpl. auto.
Qed.

Lemma load_checks_no_shape_witness :
  exists todosWithDates,
    load Ref.platform (Some (jq "[{}, 7, 'text', {'id': 3, 'createdAt': true}]"))
      = Loaded todosWithDates /\
    List.length todosWithDates
      = List.length [JObj []; JNum 7 0; JStr (js "text");
                     JObj [(js "id", JNum 3 0); (js "createdAt", JBool true)]].
Proof.
  apply load_checks_no_shape.
  - discriminate.
  - vm_compute. reflexivity.
  - reflexivity.
Defined.

(** *** What a save and a load keep whatever the dates *)

(** On a platform whose parser reads the saved text back as the document
    written, saving a list and loading the text gives as many tasks, with
    the same ids, texts and completion marks, in the same order, also when
    creation times are Invalid Dates. *)
Theorem save_load_keeps_fields (P : Platform) (ts : list Todo) :
  save P ts <> [] ->
  JSON_parse P (save P ts) = Normal (todos_toJSON P ts) ->
  exists ts',
    loaded_todos P (Some (save P ts)) = Some ts' /\
    List.length ts' = List.length ts /\
    List.map id ts' = List.map id ts /\
    List.map text ts' = List.map text ts /\
    List.map completed ts' = List.map completed ts.
Proof.
  intros Hne Hp. exists (List.map (reloaded P) ts).
  split.
  - unfold loaded_todos. rewrite load_saved by assumption.
    apply as_Todos_todo_objects.
  - split; [apply length_map | apply reloaded_fields].
Qed.

Lemma save_load_keeps_fields_witness :
  exists ts',
    loaded_todos Ref.platform
      (Some (save Ref.platform [Examples.undated; Examples.task1])) = Some ts' /\
    List.length ts' = List.length [Examples.undated; Examples.task1] /\
    List.map id ts' = List.map id [Examples.undated; Examples.task1] /\
    List.map text ts' = List.map text [Examples.undated; Examples.task1] /\
    List.map completed ts' = List.map completed [Examples.undated; Examples.task1].
Proof.
  apply save_load_keeps_fields.
  - vm_compute. discriminate.
  - vm_compute. reflexivity.
Defined.
